(** * Windows Regional Settings Reset (Python edition): the settings engine

    A shallow embedding of [src/python/regional_settings_reset.py]:
    the locale catalogue, the registry writer with its retry loop, the
    backup routine, the statistics report and the command-line path of
    [main], followed by the properties of the engine.

    Conventions.
    - Python [int] is [Z]; [str] is [string] (a byte string: non-ASCII
      text such as the Polish currency sign is its UTF-8 encoding).
    - A dict whose iteration order is observable (the locale profile,
      [SUPPORTED_LOCALES]) is an association list in insertion order; the
      class-level [LOCALE_SETTINGS_CACHE], which is only looked up by key,
      is a [gmap].
    - A method of [RegionalSettingsReset] is a function from the state
      before the call to its result and the state after it.  A call that
      can raise returns a [Result].
    - What the operating system answers (the registry, the clock, the
      [reg.exe] subprocess, [os.makedirs]) is explicit input. *)

From Stdlib Require Import ZArith QArith String Ascii List DecimalString Lia.
From stdpp Require Import gmap strings list fin_maps.

Local Open Scope Z_scope.

(** ** Python values and helpers *)

Module Py.

(** The two kinds of setting values the catalogue holds. *)
Inductive Value : Type :=
| VStr (s : string)
| VInt (n : Z).

(** [isinstance(v, int)] *)
Definition isinstance_int (v : Value) : bool :=
  match v with VInt _ => true | VStr _ => false end.

(** [a == b] on catalogue values: a [str] never equals an [int]. *)
Definition value_eqb (a b : Value) : bool :=
  match a, b with
  | VStr s, VStr t => String.eqb s t
  | VInt n, VInt m => Z.eqb n m
  | _, _ => false
  end.

(** [str(n)] for an [int]. *)
Definition str_int (n : Z) : string := NilZero.string_of_int (Z.to_int n).

(** [str(v)], as an f-string renders a value. *)
Definition str (v : Value) : string :=
  match v with VStr s => s | VInt n => str_int n end.

Inductive ExnClass : Type :=
| KeyError | OSError | FileNotFoundError | PermissionError
| NotImplementedError | ZeroDivisionError | ValueError.

(** An exception object: its class and [str(e)]. *)
Record Exn : Type := mkExn { exn_class : ExnClass; exn_text : string }.

(** The outcome of a call that may raise. *)
Inductive Result (A : Type) : Type :=
| Ok (a : A)
| Raise (e : Exn).
Arguments Ok {A} a.
Arguments Raise {A} e.

Definition nl : string := String (ascii_of_nat 10) EmptyString.
Definition esc : string := String (ascii_of_nat 27) EmptyString.
Definition backslash : string := String (ascii_of_nat 92) EmptyString.

(** [c.upper()] and [c.lower()] on one ASCII character. *)
Definition upper_ascii (c : ascii) : ascii :=
  let n := nat_of_ascii c in
  if (Nat.leb 97 n && Nat.leb n 122)%bool then ascii_of_nat (n - 32) else c.
Definition lower_ascii (c : ascii) : ascii :=
  let n := nat_of_ascii c in
  if (Nat.leb 65 n && Nat.leb n 90)%bool then ascii_of_nat (n + 32) else c.

Fixpoint upper (s : string) : string :=
  match s with
  | EmptyString => EmptyString
  | String c r => String (upper_ascii c) (upper r)
  end.
Fixpoint lower (s : string) : string :=
  match s with
  | EmptyString => EmptyString
  | String c r => String (lower_ascii c) (lower r)
  end.

(** [s.split('-')[0]]: the text before the first dash. *)
Fixpoint split_dash_first (s : string) : string :=
  match s with
  | EmptyString => EmptyString
  | String c r =>
      if Ascii.eqb c "-"%char then EmptyString else String c (split_dash_first r)
  end.

(** [d.get(k)] / [k in d] / [d[k]] on an insertion-ordered dict. *)
Fixpoint dict_get {V : Type} (d : list (string * V)) (k : string) : option V :=
  match d with
  | [] => None
  | (k', v) :: r => if String.eqb k' k then Some v else dict_get r k
  end.

(** [a / b] on ints: true division.  The quotient is kept as an exact
    rational; Python rounds the same quotient to the nearest binary64,
    and the two agree whenever the quotient is representable. *)
Definition truediv (a b : Z) : Result Q :=
  if b =? 0
  then Raise (mkExn ZeroDivisionError "division by zero")
  else Ok (inject_Z a / inject_Z b)%Q.

(** Nearest integer, ties to even. *)
Definition round_half_even (q : Q) : Z :=
  let n := Qnum q in
  let d := Z.pos (Qden q) in
  let f := n / d in
  let r := n mod d in
  match 2 * r ?= d with
  | Lt => f
  | Gt => f + 1
  | Eq => if Z.even f then f else f + 1
  end.

(** [f"{q:.1f}"] *)
Definition format_1f (q : Q) : string :=
  let t := round_half_even (q * 10)%Q in
  let a := Z.abs t in
  (if t <? 0 then "-" else "") +:+ str_int (a / 10) +:+ "." +:+ str_int (a mod 10).

End Py.
Export Py.

(** ** [class Colors] *)

Module Colors.
Definition RED : string := esc +:+ "[91m".
Definition GREEN : string := esc +:+ "[92m".
Definition YELLOW : string := esc +:+ "[93m".
Definition BLUE : string := esc +:+ "[94m".
Definition CYAN : string := esc +:+ "[96m".
Definition WHITE : string := esc +:+ "[97m".
Definition RESET : string := esc +:+ "[0m".
End Colors.

(** ** [class RegionalSettingsConfig] *)

Module RegionalSettingsConfig.

Definition SUPPORTED_LOCALES : list (string * string) :=
  [ ("pl-PL", "Polish (Poland)");
    ("en-US", "English (United States)");
    ("en-GB", "English (United Kingdom)");
    ("de-DE", "German (Germany)");
    ("fr-FR", "French (France)");
    ("es-ES", "Spanish (Spain)");
    ("it-IT", "Italian (Italy)");
    ("pt-PT", "Portuguese (Portugal)");
    ("ru-RU", "Russian (Russia)");
    ("zh-CN", "Chinese (Simplified, China)");
    ("ja-JP", "Japanese (Japan)");
    ("ko-KR", "Korean (Korea)") ].

(** The part of the configuration dict the engine reads.  The key is
    always present: [user_config] starts as a copy of [DEFAULT_CONFIG]
    and a loaded file can only overwrite it. *)
Record Config : Type := mkConfig { maxRetries : Z }.

Definition DEFAULT_CONFIG : Config := {| maxRetries := 3 |}.

End RegionalSettingsConfig.
Export RegionalSettingsConfig.

(** [locale in SUPPORTED_LOCALES] *)
Definition supported (locale : string) : bool :=
  match dict_get SUPPORTED_LOCALES locale with Some _ => true | None => false end.

(** A locale profile: setting name to value, in the order of the dict
    literal. *)
Definition Profile : Type := list (string * Value).

(** The dict literal [locale_configs] of [_get_locale_settings]; its
    ["Locale"] and ["LocaleName"] entries hold the argument. *)
Definition locale_configs (locale : string) : list (string * Profile) :=
  [ ("pl-PL",
      [ ("Locale", VStr locale);
        ("LocaleName", VStr locale);
        ("sLanguage", VStr "PLK");
        ("sCountry", VStr "Poland");
        ("sShortDate", VStr "dd.MM.yyyy");
        ("sLongDate", VStr "d MMMM yyyy");
        ("sTimeFormat", VStr "HH:mm:ss");
        ("sShortTime", VStr "HH:mm");
        ("sCurrency", VStr "zł");
        ("sMonDecimalSep", VStr ",");
        ("sMonThousandSep", VStr " ");
        ("sDecimal", VStr ",");
        ("sThousand", VStr " ");
        ("sList", VStr ";");
        ("iCountry", VInt 48);
        ("iCurrency", VInt 3);
        ("iCurrDigits", VInt 2);
        ("iDate", VInt 1);
        ("iTime", VInt 1);
        ("iTLZero", VInt 1);
        ("s1159", VStr "");
        ("s2359", VStr "") ]);
    ("en-US",
      [ ("Locale", VStr locale);
        ("LocaleName", VStr locale);
        ("sLanguage", VStr "ENU");
        ("sCountry", VStr "United States");
        ("sShortDate", VStr "M/d/yyyy");
        ("sLongDate", VStr "dddd, MMMM d, yyyy");
        ("sTimeFormat", VStr "h:mm:ss tt");
        ("sShortTime", VStr "h:mm tt");
        ("sCurrency", VStr "$");
        ("sMonDecimalSep", VStr ".");
        ("sMonThousandSep", VStr ",");
        ("sDecimal", VStr ".");
        ("sThousand", VStr ",");
        ("sList", VStr ",");
        ("iCountry", VInt 1);
        ("iCurrency", VInt 0);
        ("iCurrDigits", VInt 2);
        ("iDate", VInt 0);
        ("iTime", VInt 0);
        ("iTLZero", VInt 0);
        ("s1159", VStr "AM");
        ("s2359", VStr "PM") ]) ].

(** ** The world the engine runs in *)

(** Records of the [logging] module and lines written by [print]. *)
Inductive Level : Type := INFO | WARNING | ERROR.

Inductive Event : Type :=
| Logged (lvl : Level) (message : string)
| Printed (text : string).

(** [winreg]: the one hive the engine uses and the two value types. *)
Inductive HKEY : Type := HKEY_CURRENT_USER.
Definition REG_SZ : Z := 1.
Definition REG_DWORD : Z := 4.

(** A call made to the [winreg] module. *)
Inductive StoreCall : Type :=
| CallCreateKey (hive : HKEY) (key_path : string)
| CallSetValueEx (hive : HKEY) (key_path value_name : string)
    (value_type : Z) (value_data : Value)
| CallOpenKey (hive : HKEY) (key_path : string)
| CallQueryValueEx (hive : HKEY) (key_path value_name : string).

(** The [winreg] functions the writer calls.  A key handle is the pair
    of hive and path it was opened with.  Each function answers from the
    store it is given and leaves a store behind, also when it raises. *)
Class Winreg (Store : Type) : Type := {
  CreateKey : HKEY -> string -> Store -> Result unit * Store;
  SetValueEx : HKEY -> string -> string -> Z -> Value -> Store -> Result unit * Store;
  OpenKey : HKEY -> string -> Store -> Result unit * Store;
  QueryValueEx : HKEY -> string -> string -> Store -> Result (Value * Z) * Store
}.

(** What is fixed when the module is imported and by the platform. *)
Record Env : Type := mkEnv {
  WINDOWS_AVAILABLE : bool;
  gettempdir : string;                      (* tempfile.gettempdir() *)
  path_join : string -> string -> string    (* os.path.join *)
}.

(** [datetime.now()] *)
Record datetime : Type := mkDatetime {
  year : Z; month : Z; day : Z; hour : Z; minute : Z; second : Z
}.

(** Zero padding to [width] digits, as [%Y], [%m], ... do. *)
Definition zero_pad (width : nat) (n : Z) : string :=
  let s := str_int n in
  String.concat "" (repeat "0"%string (width - String.length s)) +:+ s.

(** [t.strftime('%Y%m%d_%H%M%S')] *)
Definition strftime_stamp (t : datetime) : string :=
  zero_pad 4 (year t) +:+ zero_pad 2 (month t) +:+ zero_pad 2 (day t) +:+ "_"
  +:+ zero_pad 2 (hour t) +:+ zero_pad 2 (minute t) +:+ zero_pad 2 (second t).

(** What the operating system answers during one [create_backup]. *)
Record BackupIO : Type := mkBackupIO {
  now : datetime;                       (* datetime.now() *)
  makedirs_answer : Result unit;        (* os.makedirs(path, exist_ok=True) *)
  run_answer : Result (Z * string)      (* subprocess.run: returncode, stderr *)
}.

(** ** The state of one [RegionalSettingsReset] object and of its world

    The first six fields are the attributes of the object.  The
    remaining ones are shared by every object of the process: the
    class-level cache, what the engine logged and printed, the registry
    with the calls made to it, the commands run, and of the file system
    the backup directories made and the files exported. *)

Record State (Store : Type) : Type := mkState {
  operation_count : Z;
  success_count : Z;
  error_count : Z;
  backup_path : string;
  log_file : string;
  user_config : Config;
  LOCALE_SETTINGS_CACHE : gmap string Profile;
  events : list Event;
  registry : Store;
  registry_calls : list StoreCall;
  commands : list (list string);
  directories : gset string;
  files : gset string
}.
Arguments mkState {Store}.
Arguments operation_count {Store}.
Arguments success_count {Store}.
Arguments error_count {Store}.
Arguments backup_path {Store}.
Arguments log_file {Store}.
Arguments user_config {Store}.
Arguments LOCALE_SETTINGS_CACHE {Store}.
Arguments events {Store}.
Arguments registry {Store}.
Arguments registry_calls {Store}.
Arguments commands {Store}.
Arguments directories {Store}.
Arguments files {Store}.

Section Updates.
Context {Store : Type}.
Implicit Type st : State Store.

Definition with_operation_count (n : Z) st : State Store :=
  mkState n (success_count st) (error_count st) (backup_path st)
    (log_file st) (user_config st) (LOCALE_SETTINGS_CACHE st) (events st)
    (registry st) (registry_calls st) (commands st) (directories st) (files st).

Definition with_success_count (n : Z) st : State Store :=
  mkState (operation_count st) n (error_count st) (backup_path st)
    (log_file st) (user_config st) (LOCALE_SETTINGS_CACHE st) (events st)
    (registry st) (registry_calls st) (commands st) (directories st) (files st).

Definition with_error_count (n : Z) st : State Store :=
  mkState (operation_count st) (success_count st) n (backup_path st)
    (log_file st) (user_config st) (LOCALE_SETTINGS_CACHE st) (events st)
    (registry st) (registry_calls st) (commands st) (directories st) (files st).

Definition with_backup_path (p : string) st : State Store :=
  mkState (operation_count st) (success_count st) (error_count st) p
    (log_file st) (user_config st) (LOCALE_SETTINGS_CACHE st) (events st)
    (registry st) (registry_calls st) (commands st) (directories st) (files st).

Definition with_cache (c : gmap string Profile) st : State Store :=
  mkState (operation_count st) (success_count st) (error_count st)
    (backup_path st) (log_file st) (user_config st) c (events st)
    (registry st) (registry_calls st) (commands st) (directories st) (files st).

Definition with_events (l : list Event) st : State Store :=
  mkState (operation_count st) (success_count st) (error_count st)
    (backup_path st) (log_file st) (user_config st)
    (LOCALE_SETTINGS_CACHE st) l
    (registry st) (registry_calls st) (commands st) (directories st) (files st).

Definition with_registry (r : Store) (calls : list StoreCall) st : State Store :=
  mkState (operation_count st) (success_count st) (error_count st)
    (backup_path st) (log_file st) (user_config st)
    (LOCALE_SETTINGS_CACHE st) (events st)
    r calls (commands st) (directories st) (files st).

Definition with_commands (c : list (list string)) st : State Store :=
  mkState (operation_count st) (success_count st) (error_count st)
    (backup_path st) (log_file st) (user_config st)
    (LOCALE_SETTINGS_CACHE st) (events st)
    (registry st) (registry_calls st) c (directories st) (files st).

Definition with_directories (d : gset string) st : State Store :=
  mkState (operation_count st) (success_count st) (error_count st)
    (backup_path st) (log_file st) (user_config st)
    (LOCALE_SETTINGS_CACHE st) (events st)
    (registry st) (registry_calls st) (commands st) d (files st).

Definition with_files (f : gset string) st : State Store :=
  mkState (operation_count st) (success_count st) (error_count st)
    (backup_path st) (log_file st) (user_config st)
    (LOCALE_SETTINGS_CACHE st) (events st)
    (registry st) (registry_calls st) (commands st) (directories st) f.

(** [RegionalSettingsReset.__init__]: a new object in the world that
    [world] has reached, with its counters at zero and no backup path.
    [cfg] is what [_load_config] leaves in [user_config] and [logf] the
    log file name [_setup_logging] chose; setting up the log file and
    reading the configuration file are not modelled further. *)
Definition init (cfg : Config) (logf : string) (world : State Store) : State Store :=
  mkState 0 0 0 "" logf cfg
    (LOCALE_SETTINGS_CACHE world) (events world)
    (registry world) (registry_calls world) (commands world)
    (directories world) (files world).

(** The world when the interpreter has just imported the module:
    an empty cache, nothing logged, no call made. *)
Definition boot (r : Store) (dirs fls : gset string) : State Store :=
  mkState 0 0 0 "" "" DEFAULT_CONFIG ∅ [] r [] [] dirs fls.

End Updates.

(** ** Methods as state transformers that may raise *)

Section Monad.
Context {Store : Type}.

Definition M (A : Type) : Type := State Store -> Result A * State Store.

Definition ret {A : Type} (a : A) : M A := fun st => (Ok a, st).

Definition raise {A : Type} (e : Exn) : M A := fun st => (Raise e, st).

Definition bind {A B : Type} (c : M A) (k : A -> M B) : M B :=
  fun st =>
    match c st with
    | (Ok a, st') => k a st'
    | (Raise e, st') => (Raise e, st')
    end.

(** [try: c  except Exception as e: h e] *)
Definition try_except {A : Type} (c : M A) (h : Exn -> M A) : M A :=
  fun st =>
    match c st with
    | (Ok a, st') => (Ok a, st')
    | (Raise e, st') => h e st'
    end.

Definition modify (f : State Store -> State Store) : M unit :=
  fun st => (Ok tt, f st).

Definition gets {A : Type} (f : State Store -> A) : M A :=
  fun st => (Ok (f st), st).

End Monad.

Notation "x <- c ;; k" := (bind c (fun x => k))
  (at level 100, c at next level, right associativity).
Notation "c ;;; k" := (bind c (fun _ => k))
  (at level 100, right associativity).

(** ** [class RegionalSettingsReset] *)

Section Engine.
Context {Store : Type} {winreg : Winreg Store} (env : Env).

Local Abbreviation M := (@M Store).

Definition emit (e : Event) : M unit :=
  modify (fun st => with_events (events st ++ [e]) st).

(** [log_info(message, color=Colors.WHITE)] *)
Definition log_info (message : string) (color : string) : M unit :=
  emit (Logged INFO message) ;;;
  if negb (String.eqb color Colors.WHITE)
  then emit (Printed (color +:+ message +:+ Colors.RESET))
  else ret tt.

Definition log_warning (message : string) : M unit :=
  emit (Logged WARNING message) ;;;
  emit (Printed (Colors.YELLOW +:+ "[WARNING] " +:+ message +:+ Colors.RESET)).

Definition log_error (message : string) : M unit :=
  emit (Logged ERROR message) ;;;
  emit (Printed (Colors.RED +:+ "[ERROR] " +:+ message +:+ Colors.RESET)) ;;;
  modify (fun st => with_error_count (error_count st + 1) st).

Definition log_success (message : string) : M unit :=
  emit (Logged INFO message) ;;;
  emit (Printed (Colors.GREEN +:+ "[SUCCESS] " +:+ message +:+ Colors.RESET)) ;;;
  modify (fun st => with_success_count (success_count st + 1) st).


(** *** [create_backup] *)

(** [os.makedirs(path, exist_ok=True)]: when the system call succeeds
    the directory exists afterwards. *)
Definition os_makedirs (answer : Result unit) (path : string) : M unit :=
  fun st =>
    match answer with
    | Ok _ => (Ok tt, with_directories ({[ path ]} ∪ directories st) st)
    | Raise e => (Raise e, st)
    end.

(** What a finished command leaves on disk: [reg export KEY FILE /y]
    that exits with 0 has written FILE; nothing else is assumed. *)
Definition command_effect (cmd : list string) (returncode : Z)
    (st : State Store) : State Store :=
  match cmd with
  | [prog; verb; _; file; _] =>
      if (String.eqb prog "reg" && String.eqb verb "export" && (returncode =? 0))%bool
      then with_files ({[ file ]} ∪ files st) st
      else st
  | _ => st
  end.

(** [subprocess.run(cmd, capture_output=True, text=True)] *)
Definition subprocess_run (answer : Result (Z * string)) (cmd : list string)
    : M (Z * string) :=
  fun st =>
    let st1 := with_commands (commands st ++ [cmd]) st in
    match answer with
    | Ok (returncode, stderr) =>
        (Ok (returncode, stderr), command_effect cmd returncode st1)
    | Raise e => (Raise e, st1)
    end.

Definition backup_dir_name (t : datetime) : string :=
  "RegionalSettings_Backup_" +:+ strftime_stamp t.

Definition create_backup (registry_path backup_name : string) (io : BackupIO)
    : M bool :=
  if negb (WINDOWS_AVAILABLE env) then
    log_warning "Registry backup not available on this platform" ;;;
    ret false
  else
    try_except
      (current <- gets backup_path ;;
       (if String.eqb current ""
        then
          let fresh := path_join env (gettempdir env) (backup_dir_name (now io)) in
          modify (with_backup_path fresh) ;;;
          os_makedirs (makedirs_answer io) fresh
        else ret tt) ;;;
       dir <- gets backup_path ;;
       let backup_file := path_join env dir (backup_name +:+ ".reg") in
       let cmd := ["reg"; "export"; registry_path; backup_file; "/y"]%string in
       result <- subprocess_run (run_answer io) cmd ;;
       if fst result =? 0
       then
         log_success ("Backed up " +:+ registry_path +:+ " to " +:+ backup_file) ;;;
         ret true
       else
         log_error ("Failed to backup " +:+ registry_path +:+ ": " +:+ snd result) ;;;
         ret false)
      (fun e =>
         log_error ("Backup error for " +:+ registry_path +:+ ": " +:+ exn_text e) ;;;
         ret false).

(** *** [set_registry_value] *)

Definition winreg_call {A : Type} (c : StoreCall)
    (op : Store -> Result A * Store) : M A :=
  fun st =>
    let (r, s) := op (registry st) in
    (r, with_registry s (registry_calls st ++ [c]) st).

Definition value_label (key_path value_name : string) : string :=
  key_path +:+ backslash +:+ value_name.

(** The body of the [try] in the retry loop.  [Some true] is
    [return True]; [None] is falling out of the [try] with the loop
    going on, which is what a read-back that differs does. *)
Definition write_attempt (hive : HKEY) (key_path value_name : string)
    (value_data : Value) (value_type : Z) : M (option bool) :=
  modify (fun st => with_operation_count (operation_count st + 1) st) ;;;
  winreg_call (CallCreateKey hive key_path) (CreateKey hive key_path) ;;;
  winreg_call (CallSetValueEx hive key_path value_name value_type value_data)
    (SetValueEx hive key_path value_name value_type value_data) ;;;
  winreg_call (CallOpenKey hive key_path) (OpenKey hive key_path) ;;;
  stored <- winreg_call (CallQueryValueEx hive key_path value_name)
              (QueryValueEx hive key_path value_name) ;;
  if value_eqb (fst stored) value_data
  then
    log_success ("Set " +:+ value_label key_path value_name +:+ " = " +:+ str value_data) ;;;
    ret (Some true)
  else ret None.

(** The [except Exception as e] clause of the loop. *)
Definition attempt_failed (attempt max_retries : Z) (key_path value_name : string)
    (e : Exn) : M unit :=
  if attempt <? max_retries - 1
  then log_warning ("Registry attempt " +:+ str_int (attempt + 1) +:+ " failed for "
                    +:+ value_label key_path value_name +:+ ": " +:+ exn_text e)
  else log_error ("Failed to set " +:+ value_label key_path value_name +:+ " after "
                  +:+ str_int max_retries +:+ " attempts: " +:+ exn_text e).

(** [for attempt in range(max_retries): ...] followed by
    [return False]; [remaining] counts the iterations left. *)
Fixpoint retry_loop (remaining : nat) (attempt max_retries : Z) (hive : HKEY)
    (key_path value_name : string) (value_data : Value) (value_type : Z) : M bool :=
  match remaining with
  | O => ret false
  | S n =>
      r <- try_except
             (write_attempt hive key_path value_name value_data value_type)
             (fun e =>
                attempt_failed attempt max_retries key_path value_name e ;;;
                ret None) ;;
      match r with
      | Some b => ret b
      | None => retry_loop n (attempt + 1) max_retries hive key_path value_name
                  value_data value_type
      end
  end.

Definition set_registry_value (hive : HKEY) (key_path value_name : string)
    (value_data : Value) (value_type : option Z) : M bool :=
  if negb (WINDOWS_AVAILABLE env) then
    log_info ("[DEMO] Would set " +:+ value_label key_path value_name +:+ " = "
              +:+ str value_data) Colors.WHITE ;;;
    modify (fun st => with_success_count (success_count st + 1) st) ;;;
    ret true
  else
    let value_type := match value_type with None => REG_SZ | Some t => t end in
    max_retries <- gets (fun st => maxRetries (user_config st)) ;;
    retry_loop (Z.to_nat max_retries) 0 max_retries hive key_path value_name
      value_data value_type.

(** *** [_get_locale_settings] *)

(** The default handed to [locale_configs.get]: Python builds it before
    the lookup, and its last entry indexes [SUPPORTED_LOCALES]. *)
Definition default_profile (locale : string) : M Profile :=
  match dict_get SUPPORTED_LOCALES locale with
  | None => raise (mkExn KeyError ("'" +:+ locale +:+ "'"))
  | Some name =>
      ret [ ("Locale", VStr locale);
            ("LocaleName", VStr locale);
            ("sLanguage", VStr (upper (split_dash_first locale)));
            ("sCountry", VStr name) ]%string
  end.

Definition _get_locale_settings (locale : string) : M Profile :=
  cache <- gets LOCALE_SETTINGS_CACHE ;;
  match cache !! locale with
  | Some cached => ret cached
  | None =>
      default <- default_profile locale ;;
      let result :=
        match dict_get (locale_configs locale) locale with
        | Some p => p
        | None => default
        end in
      modify (fun st => with_cache (<[ locale := result ]> (LOCALE_SETTINGS_CACHE st)) st) ;;;
      ret result
  end.

(** *** [apply_locale_settings] *)

Definition intl_path : string := "Control Panel" +:+ backslash +:+ "International".

(** The loop of the Windows branch; [success] is the local variable. *)
Fixpoint apply_core (settings : Profile) (success : bool) : M bool :=
  match settings with
  | [] => ret success
  | (setting_name, setting_value) :: rest =>
      let value_type :=
        if isinstance_int setting_value then REG_DWORD else REG_SZ in
      ok <- set_registry_value HKEY_CURRENT_USER intl_path setting_name
              setting_value (Some value_type) ;;
      apply_core rest (if negb ok then false else success)
  end.

(** The loop of the demonstration branch. *)
Fixpoint apply_demo (settings : Profile) : M unit :=
  match settings with
  | [] => ret tt
  | (setting_name, setting_value) :: rest =>
      log_info ("[DEMO] " +:+ setting_name +:+ " = " +:+ str setting_value)
        Colors.WHITE ;;;
      modify (fun st => with_operation_count (operation_count st + 1) st) ;;;
      modify (fun st => with_success_count (success_count st + 1) st) ;;;
      apply_demo rest
  end.

(** The [else] branch: demonstration mode on other platforms. *)
Definition demo_branch (locale : string) (locale_settings : Profile) : M bool :=
  log_info ("[DEMO MODE] Applying "
            +:+ str_int (Z.of_nat (length locale_settings))
            +:+ " settings for " +:+ locale) Colors.WHITE ;;;
  apply_demo locale_settings ;;;
  ret true.

Definition apply_locale_settings (locale : string) : M bool :=
  log_info ("Applying settings for locale: " +:+ locale) Colors.WHITE ;;;
  locale_settings <- _get_locale_settings locale ;;
  if WINDOWS_AVAILABLE env
  then apply_core locale_settings true
  else demo_branch locale locale_settings.

(** *** [generate_statistics_report] *)

Definition lift {A : Type} (r : Result A) : M A := fun st => (r, st).

(** [self.backup_path or 'None created'] *)
Definition backup_text (path : string) : string :=
  if String.eqb path "" then "None created" else path.

Definition report_text (operations successes errors : Z) (success_rate : Q)
    (logf backup : string) : string :=
  nl +:+ Colors.CYAN +:+ "Execution Statistics:" +:+ Colors.RESET +:+ nl
  +:+ "  Total Operations: " +:+ str_int operations +:+ nl
  +:+ "  Successful: " +:+ Colors.GREEN +:+ str_int successes +:+ Colors.RESET +:+ nl
  +:+ "  Failed: " +:+ Colors.RED +:+ str_int errors +:+ Colors.RESET +:+ nl
  +:+ "  Success Rate: " +:+ Colors.BLUE +:+ format_1f success_rate +:+ "%"
  +:+ Colors.RESET +:+ nl
  +:+ "  " +:+ nl
  +:+ Colors.CYAN +:+ "Files:" +:+ Colors.RESET +:+ nl
  +:+ "  Log File: " +:+ Colors.WHITE +:+ logf +:+ Colors.RESET +:+ nl
  +:+ "  Backup Directory: " +:+ Colors.WHITE +:+ backup_text backup
  +:+ Colors.RESET +:+ nl.

Definition generate_statistics_report : M string :=
  st <- gets (fun st => st) ;;
  ratio <- lift (truediv (success_count st) (Z.max (operation_count st) 1)) ;;
  let success_rate := (ratio * 100)%Q in
  ret (report_text (operation_count st) (success_count st) (error_count st)
         success_rate (log_file st) (backup_path st)).

(** *** The command-line path of [main] *)



(** [if args.locale:] *)
Definition truthy (o : option string) : option string :=
  match o with
  | Some s => if String.eqb s "" then None else Some s
  | None => None
  end.


End Engine.

(** ** Stores

    Three implementations of the [winreg] interface: a registry that
    behaves as the Windows one does for the engine's calls, a registry
    the user may not write to, and the [MockWinreg] class the module
    installs on other platforms. *)

Module Registry.

(** Key path to the values under it, each with its type. *)
Definition t : Type := gmap string (gmap string (Value * Z)).

(** Text up to the first NUL character: what [QueryValueEx] returns for
    a [REG_SZ] value. *)
Fixpoint until_nul (s : string) : string :=
  match s with
  | EmptyString => EmptyString
  | String c r =>
      if Ascii.eqb c Ascii.zero then EmptyString else String c (until_nul r)
  end.

Definition read_back (v : Value) : Value :=
  match v with
  | VStr s => VStr (until_nul s)
  | VInt n => VInt n
  end.

(** [SetValueEx] refuses data that does not fit the type. *)
Definition fits (value_type : Z) (v : Value) : bool :=
  match v with
  | VStr _ => value_type =? REG_SZ
  | VInt n => ((value_type =? REG_DWORD) && (0 <=? n) && (n <? 2 ^ 32))%bool
  end.

Definition create_key (_ : HKEY) (key_path : string) (r : gmap string (gmap string (Value * Z)))
    : Result unit * gmap string (gmap string (Value * Z)) :=
  match r !! key_path with
  | Some _ => (Ok tt, r)
  | None => (Ok tt, <[ key_path := ∅ ]> r)
  end.

Definition set_value_ex (_ : HKEY) (key_path value_name : string) (value_type : Z)
    (v : Value) (r : gmap string (gmap string (Value * Z)))
    : Result unit * gmap string (gmap string (Value * Z)) :=
  match r !! key_path with
  | None => (Raise (mkExn OSError "The handle is invalid"), r)
  | Some values =>
      if fits value_type v
      then (Ok tt, <[ key_path := <[ value_name := (v, value_type) ]> values ]> r)
      else (Raise (mkExn ValueError "Could not convert the data to the specified type."), r)
  end.

Definition open_key (_ : HKEY) (key_path : string) (r : gmap string (gmap string (Value * Z)))
    : Result unit * gmap string (gmap string (Value * Z)) :=
  match r !! key_path with
  | Some _ => (Ok tt, r)
  | None => (Raise (mkExn FileNotFoundError "The system cannot find the file specified"), r)
  end.

Definition query_value_ex (_ : HKEY) (key_path value_name : string)
    (r : gmap string (gmap string (Value * Z)))
    : Result (Value * Z) * gmap string (gmap string (Value * Z)) :=
  match r !! key_path with
  | None => (Raise (mkExn OSError "The handle is invalid"), r)
  | Some values =>
      match values !! value_name with
      | Some (v, ty) => (Ok (read_back v, ty), r)
      | None => (Raise (mkExn FileNotFoundError "The system cannot find the file specified"), r)
      end
  end.

Definition live : Winreg (gmap string (gmap string (Value * Z))) :=
  {| CreateKey := create_key;
     SetValueEx := set_value_ex;
     OpenKey := open_key;
     QueryValueEx := query_value_ex |}.

(** A registry whose keys the user may not create or open for writing. *)
Definition denied : Winreg unit :=
  {| CreateKey := fun _ _ s => (Raise (mkExn PermissionError "Access is denied"), s);
     SetValueEx := fun _ _ _ _ _ s => (Raise (mkExn PermissionError "Access is denied"), s);
     OpenKey := fun _ _ s => (Raise (mkExn PermissionError "Access is denied"), s);
     QueryValueEx := fun _ _ _ s => (Raise (mkExn PermissionError "Access is denied"), s) |}.

(** [class MockWinreg]: every function raises. *)
Definition not_available : Exn :=
  mkExn NotImplementedError "Windows registry not available on this platform".

Definition MockWinreg : Winreg unit :=
  {| CreateKey := fun _ _ s => (Raise not_available, s);
     SetValueEx := fun _ _ _ _ _ s => (Raise not_available, s);
     OpenKey := fun _ _ s => (Raise not_available, s);
     QueryValueEx := fun _ _ _ s => (Raise not_available, s) |}.

(** The registry while something else holds the key: [CreateKey] raises
    as long as the countdown lasts, then the registry behaves as [live]. *)
Definition busy_create_key (h : HKEY) (key_path : string)
    (s : nat * gmap string (gmap string (Value * Z)))
    : Result unit * (nat * gmap string (gmap string (Value * Z))) :=
  match fst s with
  | S n => (Raise (mkExn PermissionError "Access is denied"), (n, snd s))
  | O => let (r, g) := create_key h key_path (snd s) in (r, (O, g))
  end.

Definition busy : Winreg (nat * gmap string (gmap string (Value * Z))) :=
  {| CreateKey := busy_create_key;
     SetValueEx := fun h k n t v s =>
       let (r, g) := set_value_ex h k n t v (snd s) in (r, (fst s, g));
     OpenKey := fun h k s =>
       let (r, g) := open_key h k (snd s) in (r, (fst s, g));
     QueryValueEx := fun h k n s =>
       let (r, g) := query_value_ex h k n (snd s) in (r, (fst s, g)) |}.

End Registry.

(** Two platforms: Windows with the registry available, and any other
    platform, where the module runs in demonstration mode. *)
Definition windows_env : Env :=
  {| WINDOWS_AVAILABLE := true;
     gettempdir := "C:" +:+ backslash +:+ "Temp";
     path_join := fun a b => a +:+ backslash +:+ b |}.

Definition demo_env : Env :=
  {| WINDOWS_AVAILABLE := false;
     gettempdir := "/tmp";
     path_join := fun a b => a +:+ "/" +:+ b |}.

(** * More of the module

    The helpers and methods below are not on the path of
    [apply_locale_settings]: the input sanitizer, the configuration
    loader, the two further resets and the quick reset of the menu. *)

(** ** [_sanitize_input]

    The length of the text matters here, so a [str] is the list of its
    code points. *)

(** The characters of the class [[;&|`$\n\r]]. *)
Definition dangerous (c : N) : bool :=
  existsb (N.eqb c) [59; 38; 124; 96; 36; 10; 13]%N.

(** [s[:stop]]: the first [stop] items, or all but the last [-stop] for
    a negative [stop]. *)
Definition slice_to {A : Type} (stop : Z) (s : list A) : list A :=
  if 0 <=? stop
  then firstn (Z.to_nat stop) s
  else firstn (Z.to_nat (Z.of_nat (length s) + stop)) s.

(** [re.sub(r'[;&|`$\n\r]', '', user_input)] *)
Definition strip_dangerous (user_input : list N) : list N :=
  List.filter (fun c => negb (dangerous c)) user_input.

Definition _sanitize_input (user_input : list N) (max_length : Z) : list N :=
  match user_input with
  | [] => []
  | _ => slice_to max_length (strip_dangerous user_input)
  end.

(** ** JSON values and [_load_config] *)

Module Json.

(** What [json.load] returns.  A float is the rational it stands for;
    the infinities and NaN, which [json.load] also reads, are left out. *)
#[local] Set Warnings "-register-all".
Inductive t : Type :=
| Null
| Bool (b : bool)
| Int (n : Z)
| Float (q : Q)
| Str (s : string)
| Arr (items : list t)
| Obj (members : list (string * t)).

(** [bool(v)] *)
Definition truth (v : t) : bool :=
  match v with
  | Null => false
  | Bool b => b
  | Int n => negb (n =? 0)
  | Float q => negb (Qeq_bool q 0)
  | Str s => negb (String.eqb s "")
  | Arr items => match items with [] => false | _ => true end
  | Obj members => match members with [] => false | _ => true end
  end.

End Json.

(** [d[k] = v] on an insertion-ordered dict: a key that is present keeps
    its place, a new key goes to the end. *)
Fixpoint dict_set {V : Type} (d : list (string * V)) (k : string) (v : V)
    : list (string * V) :=
  match d with
  | [] => [(k, v)]
  | (k', v') :: r =>
      if String.eqb k' k then (k', v) :: r else (k', v') :: dict_set r k v
  end.

(** [d.update(other)] for a dict [other]. *)
Definition dict_update {V : Type} (d other : list (string * V)) : list (string * V) :=
  fold_left (fun acc kv => dict_set acc (fst kv) (snd kv)) other d.

(** [RegionalSettingsConfig.DEFAULT_CONFIG], the whole dict. *)
Definition DEFAULT_CONFIG_items : list (string * Json.t) :=
  [ ("defaultLocale", Json.Str "pl-PL");
    ("skipBackup", Json.Bool false);
    ("maxRetries", Json.Int 3);
    ("logLevel", Json.Str "INFO");
    ("features",
      Json.Obj [ ("resetBrowserSettings", Json.Bool true);
                 ("resetOfficeSettings", Json.Bool true);
                 ("resetMruLists", Json.Bool true);
                 ("resetSystemLocale", Json.Bool true);
                 ("resetWindows11Memory", Json.Bool true) ]);
    ("backup",
      Json.Obj [ ("retentionDays", Json.Int 30);
                 ("compressionEnabled", Json.Bool false);
                 ("customBackupPath", Json.Str "") ]) ]%string.

(** [winreg.DeleteTree], which only [reset_windows11_memory_slots]
    calls. *)
Class WinregTree (Store : Type) : Type := {
  DeleteTree : HKEY -> string -> Store -> Result unit * Store
}.

(** How a quick reset from the menu ends. *)
Inductive QuickReset : Type :=
| NotAdmin
| Cancelled
| Completed (success : bool)
| Crashed (e : Exn).

(** [class InteractiveMenu]: the attribute the engine depends on. *)
Record Menu : Type := mkMenu { current_locale : string }.

(** [InteractiveMenu.__init__] *)
Definition menu_init : Menu := {| current_locale := "pl-PL" |}.

Section Resets.
Context {Store : Type} {winreg : Winreg Store} {tree : WinregTree Store} (env : Env).

Local Abbreviation M := (@M Store).

(** [_load_config].  [config_file] is the argument, [file_exists] what
    [os.path.exists] says of it and [loaded] what opening the file and
    [json.load] give: the top-level object of the file, or the exception
    raised.  The result is the dict left in [self.user_config]; the
    state's [user_config] is the [maxRetries] entry of it. *)
Definition _load_config (config_file : option string) (file_exists : bool)
    (loaded : Result (list (string * Json.t))) : M (list (string * Json.t)) :=
  let user_config := DEFAULT_CONFIG_items in
  match truthy config_file with
  | Some name =>
      if file_exists then
        match loaded with
        | Ok loaded_config =>
            log_info ("Configuration loaded from: " +:+ name) Colors.WHITE ;;;
            ret (dict_update user_config loaded_config)
        | Raise e =>
            log_warning ("Failed to load configuration from " +:+ name +:+ ": "
                         +:+ exn_text e) ;;;
            ret user_config
        end
      else ret user_config
  | None => ret user_config
  end.

(** [_check_admin_privileges] and [InteractiveMenu._check_admin]:
    [is_user_an_admin] is what [IsUserAnAdmin()] answers. *)
Definition _check_admin (is_user_an_admin : Result Z) : bool :=
  if negb (WINDOWS_AVAILABLE env) then false
  else
    match is_user_an_admin with
    | Ok n => negb (n =? 0)
    | Raise _ => false
    end.

(** *** [reset_windows11_memory_slots] *)

Definition profile_path : string :=
  "Control Panel" +:+ backslash +:+ "International" +:+ backslash +:+ "User Profile".

(** The [DeleteTree] call; it is not among the calls [registry_calls]
    records, which are the writer's. *)
Definition delete_tree_call (hive : HKEY) (key_path : string) : M unit :=
  fun st =>
    let (r, s) := DeleteTree hive key_path (registry st) in
    (r, with_registry s (registry_calls st) st).

Definition reset_windows11_memory_slots : M bool :=
  log_info "Resetting Windows 11 memory slots..." Colors.WHITE ;;;
  if negb (WINDOWS_AVAILABLE env) then
    log_info "[DEMO] Would reset Windows 11 memory slots" Colors.WHITE ;;;
    ret true
  else
    try_except
      (try_except
         (delete_tree_call HKEY_CURRENT_USER profile_path ;;;
          log_success "Cleared user profile regional settings")
         (fun e =>
            match exn_class e with
            | FileNotFoundError =>
                log_info "User profile settings already cleared" Colors.WHITE
            | _ => log_warning ("Could not clear user profile: " +:+ exn_text e)
            end) ;;;
       ret true)
      (fun e =>
         log_error ("Error resetting Windows 11 memory slots: " +:+ exn_text e) ;;;
         ret false).

(** *** [reset_browser_settings] *)

Definition ie_paths : list string :=
  [ "Software" +:+ backslash +:+ "Microsoft" +:+ backslash +:+ "Internet Explorer"
    +:+ backslash +:+ "International";
    "Software" +:+ backslash +:+ "Microsoft" +:+ backslash +:+ "Internet Explorer"
    +:+ backslash +:+ "Main" +:+ backslash +:+ "International" ].

(** The loop over [ie_paths]; [success] is the local variable. *)
Fixpoint browser_loop (paths : list string) (success : bool) : M bool :=
  match paths with
  | [] => ret success
  | path :: rest =>
      ok <- set_registry_value env HKEY_CURRENT_USER path "AcceptLanguage"
              (VStr "en-US") None ;;
      browser_loop rest (if negb ok then false else success)
  end.

(** [features] is the dict [self.user_config["features"]]. *)
Definition reset_browser_settings (features : list (string * Json.t)) : M bool :=
  flag <- match dict_get features "resetBrowserSettings" with
          | Some v => ret v
          | None => raise (mkExn KeyError "'resetBrowserSettings'")
          end ;;
  if negb (Json.truth flag) then ret true
  else
    log_info "Resetting browser settings..." Colors.WHITE ;;;
    try_except
      (success <- browser_loop ie_paths true ;;
       log_success "Browser settings reset completed" ;;;
       ret success)
      (fun e =>
         log_error ("Error resetting browser settings: " +:+ exn_text e) ;;;
         ret false).

(** *** [class InteractiveMenu] *)

(** [configure_settings]: [choice] is [int(choice)] when the text typed
    is not empty, [isdigit()] holds of it and the conversion succeeds;
    otherwise nothing is selected. *)
Definition configure_settings (choice : option Z) (menu : Menu)
    : Menu :=
  match choice with
  | Some n =>
      let idx := n - 1 in
      if ((0 <=? idx) && (idx <? Z.of_nat (length SUPPORTED_LOCALES)))%bool then
        match nth_error SUPPORTED_LOCALES (Z.to_nat idx) with
        | Some item => {| current_locale := fst item |}
        | None => menu
        end
      else menu
  | None => menu
  end.

(** [quick_reset]: [is_user_an_admin] is what Windows answers, [answer]
    what the user types at the prompt, [logf] the log file name of the
    new object and [io] what the system answers during the backup.  Of
    what it prints only the report is kept. *)
Definition quick_reset (is_user_an_admin : Result Z) (answer logf : string)
    (io : BackupIO) (menu : Menu) (world : State Store)
    : QuickReset * State Store :=
  if negb (_check_admin is_user_an_admin) then (NotAdmin, world)
  else if negb (String.eqb (lower answer) "y") then (Cancelled, world)
  else
    let app := init DEFAULT_CONFIG logf world in
    match (create_backup env ("HKEY_CURRENT_USER" +:+ backslash +:+ intl_path)
             "International_Quick_Backup" io ;;;
           ok <- apply_locale_settings env (current_locale menu) ;;
           report <- generate_statistics_report ;;
           emit (Printed report) ;;;
           ret ok) app with
    | (Ok ok, st) => (Completed ok, st)
    | (Raise e, st) => (Crashed e, st)
    end.

End Resets.

(** [DeleteTree] on the registry model: the key and every key below it
    go; a key that is not there raises [FileNotFoundError]. *)
Definition below (key_path other : string) : bool :=
  (String.eqb key_path other || String.prefix (key_path +:+ backslash) other)%bool.

Definition registry_delete_tree (_ : HKEY) (key_path : string)
    (r : gmap string (gmap string (Value * Z)))
    : Result unit * gmap string (gmap string (Value * Z)) :=
  match r !! key_path with
  | Some _ => (Ok tt, filter (fun kv => below key_path (fst kv) = false) r)
  | None => (Raise (mkExn FileNotFoundError "The system cannot find the file specified"), r)
  end.

Definition live_tree : WinregTree (gmap string (gmap string (Value * Z))) :=
  {| DeleteTree := registry_delete_tree |}.

(** Deleting is denied. *)
Definition denied_tree : WinregTree unit :=
  {| DeleteTree := fun _ _ s => (Raise (mkExn PermissionError "Access is denied"), s) |}.

(** * The vocabulary of the properties *)

(** [s] occurs in [t]. *)
Definition Substring (s t : string) : Prop :=
  exists before after, t = before +:+ s +:+ after.

(** *** Frames

    [keeps view c] says that running [c] does not change what [view]
    shows of the state, whether [c] returns or raises. *)

Section Views.
Context {Store : Type} {X : Type}.
Variable view : State Store -> X.

Definition keeps {A : Type} (c : M A) : Prop :=
  forall st, view (snd (c st)) = view st.

(** The views below are blind to one kind of update each. *)
Definition blind_events : Prop := forall l st, view (with_events l st) = view st.
Definition blind_operation_count : Prop :=
  forall n st, view (with_operation_count n st) = view st.
Definition blind_success_count : Prop :=
  forall n st, view (with_success_count n st) = view st.
Definition blind_error_count : Prop :=
  forall n st, view (with_error_count n st) = view st.
Definition blind_registry : Prop :=
  forall r c st, view (with_registry r c st) = view st.

(** A view that the registry writer cannot change. *)
Definition blind_to_writer : Prop :=
  blind_events /\ blind_operation_count /\ blind_success_count
  /\ blind_error_count /\ blind_registry.

(** A view that [create_backup] cannot change. *)
Definition blind_to_backup : Prop :=
  blind_events /\ blind_success_count /\ blind_error_count
  /\ (forall p st, view (with_backup_path p st) = view st)
  /\ (forall d st, view (with_directories d st) = view st)
  /\ (forall c st, view (with_commands c st) = view st)
  /\ (forall f st, view (with_files f st) = view st).

End Views.

(** What the registry writer never touches: the object's backup path,
    log file and configuration, the cache, the commands run and the file
    system. *)
Definition outside_writer {Store : Type} (st : State Store) :=
  (backup_path st, log_file st, user_config st, LOCALE_SETTINGS_CACHE st,
   commands st, directories st, files st).

(** Every write attempt opens with one [CreateKey]; counting those calls
    counts the attempts. *)
Definition is_attempt (c : StoreCall) : bool :=
  match c with CallCreateKey _ _ => true | _ => false end.

Fixpoint attempts (calls : list StoreCall) : Z :=
  match calls with
  | [] => 0
  | c :: rest => (if is_attempt c then 1 else 0) + attempts rest
  end.

(** The four calls of one complete attempt, in the order they are made. *)
Definition attempt_calls (hive : HKEY) (key_path value_name : string)
    (value_data : Value) (value_type : Z) : list StoreCall :=
  [ CallCreateKey hive key_path;
    CallSetValueEx hive key_path value_name value_type value_data;
    CallOpenKey hive key_path;
    CallQueryValueEx hive key_path value_name ].

(** A trace made of attempts: each one is a non-empty opening part of
    the four calls, cut where a call raised. *)
Inductive attempt_trace (full : list StoreCall) : list StoreCall -> Prop :=
| trace_nil : attempt_trace full []
| trace_attempt made rest later :
    full = made ++ rest -> made <> [] -> attempt_trace full later ->
    attempt_trace full (made ++ later).

(** The read-back check that lets an attempt return [True]. *)
Definition verified {Store : Type} {winreg : Winreg Store}
    (hive : HKEY) (key_path value_name : string) (value_data : Value)
    (value_type : Z) (before after : Store) : Prop :=
  exists s1 s2 s3 stored ty,
    CreateKey hive key_path before = (Ok tt, s1)
    /\ SetValueEx hive key_path value_name value_type value_data s1 = (Ok tt, s2)
    /\ OpenKey hive key_path s2 = (Ok tt, s3)
    /\ QueryValueEx hive key_path value_name s3 = (Ok (stored, ty), after)
    /\ stored = value_data.

(** The registry type a call works with: [REG_SZ] when none is given. *)
Definition the_type (value_type : option Z) : Z :=
  match value_type with None => REG_SZ | Some t => t end.

(** [range(max_retries)] runs [max(max_retries, 0)] times. *)
Definition iterations {S : Type} (st : State S) : Z :=
  Z.max (maxRetries (user_config st)) 0.

(** What [_get_locale_settings] builds for a locale it has not cached:
    nothing for a locale outside [SUPPORTED_LOCALES], the hand-written
    table when there is one, the four-entry default otherwise. *)
Definition catalogue (locale : string) : option Profile :=
match dict_get SUPPORTED_LOCALES locale with
| None => None
| Some name =>
    Some match dict_get (locale_configs locale) locale with
         | Some p => p
         | None => [ ("Locale", VStr locale);
                     ("LocaleName", VStr locale);
                     ("sLanguage", VStr (upper (split_dash_first locale)));
                     ("sCountry", VStr name) ]%string
         end
end.

(** The cache holds nothing but what the catalogue gives. *)
Definition cache_faithful {Store : Type} (st : State Store) : Prop :=
forall locale p, LOCALE_SETTINGS_CACHE st !! locale = Some p -> catalogue locale = Some p.

(** The states a process can be in: the world at start-up, a new object,
    and what the engine's methods leave behind. *)
Inductive reachable {Store : Type} {winreg : Winreg Store} (env : Env)
  : State Store -> Prop :=
| reach_boot r dirs fls : reachable env (boot r dirs fls)
| reach_init cfg logf world :
    reachable env world -> reachable env (init cfg logf world)
| reach_apply locale st :
    reachable env st -> reachable env (snd (apply_locale_settings env locale st))
| reach_set hive key_path value_name value_data value_type st :
    reachable env st ->
    reachable env (snd (set_registry_value env hive key_path value_name
                          value_data value_type st))
| reach_backup registry_path backup_name io st :
    reachable env st ->
    reachable env (snd (create_backup env registry_path backup_name io st))
| reach_report st :
    reachable env st -> reachable env (snd (generate_statistics_report st)).

(** The state in which [apply_locale_settings] looks the locale up. *)
Definition announced {Store : Type} (locale : string) (st : State Store) : State Store :=
  with_events (events st ++ [Logged INFO ("Applying settings for locale: " +:+ locale)]) st.

(** What the demonstration loop logs for a profile. *)
Definition demo_lines (settings : Profile) : list Event :=
  map (fun kv => Logged INFO ("[DEMO] " +:+ fst kv +:+ " = " +:+ str (snd kv))) settings.


(** [succeeded / max(attempted, 1) * 100] *)
Definition success_rate {Store : Type} (st : State Store) : Q :=
  (inject_Z (success_count st) / inject_Z (Z.max (operation_count st) 1) * 100)%Q.

(** The directory a first call chooses, the file a call exports to and
    the command it runs. *)
Definition fresh_backup_path (env : Env) (io : BackupIO) : string :=
  path_join env (gettempdir env) (backup_dir_name (now io)).

Definition backup_file_in (env : Env) (backup_name dir : string) : string :=
  path_join env dir (backup_name +:+ ".reg").

Definition export_command (env : Env) (registry_path backup_name dir : string)
    : list string :=
  ["reg"; "export"; registry_path; backup_file_in env backup_name dir; "/y"]%string.

(** The directory this call works in: the one already chosen by the
    object, or a new one. *)
Definition backup_dir_for {Store : Type} (env : Env) (io : BackupIO)
    (st : State Store) : string :=
  if String.eqb (backup_path st) "" then fresh_backup_path env io else backup_path st.

(** *** The timestamp in the directory name *)







(** *** Concrete inputs *)

(** A quick reset as [InteractiveMenu.quick_reset] performs it on
    Windows, on an empty registry and with every system call succeeding:
    a new object, one backup, then the Polish profile. *)
Definition quick_reset_io : BackupIO :=
  {| now := mkDatetime 2024 3 7 9 5 1;
     makedirs_answer := Ok tt;
     run_answer := Ok (0, "") |}.

Definition quick_reset_state : State (gmap string (gmap string (Value * Z))) :=
  let app := init DEFAULT_CONFIG "reset.log" (boot ∅ ∅ ∅) in
  let backed_up :=
    snd (create_backup windows_env
           ("HKEY_CURRENT_USER" +:+ backslash +:+ intl_path)
           "International_Quick_Backup" quick_reset_io app) in
  snd (apply_locale_settings (winreg := Registry.live) windows_env "pl-PL" backed_up).

(** An [s1159] value with a NUL in it: the registry stores it whole and
    hands back the text before the NUL. *)
Definition am_with_nul : Value :=
  VStr (String "A" (String "M" (String Ascii.zero EmptyString))).

(** The state after writing that value on Windows with the default
    three retries. *)
Definition truncated_write :
    Result bool * State (gmap string (gmap string (Value * Z))) :=
  set_registry_value (winreg := Registry.live) windows_env HKEY_CURRENT_USER
    intl_path "s1159" am_with_nul (Some REG_SZ) (boot ∅ ∅ ∅).





(** *** Tactics for the writer's proofs *)

(** Destructs the next [winreg] answer the goal is waiting for. *)
Ltac next_answer :=
  match goal with
  | |- context [CreateKey ?h ?k ?s] =>
      let e := fresh "e" in let s1 := fresh "s" in let E := fresh "Hcreate" in
      destruct (CreateKey h k s) as [[[]|e] s1] eqn:E
  | |- context [SetValueEx ?h ?k ?n ?t ?v ?s] =>
      let e := fresh "e" in let s1 := fresh "s" in let E := fresh "Hset" in
      destruct (SetValueEx h k n t v s) as [[[]|e] s1] eqn:E
  | |- context [OpenKey ?h ?k ?s] =>
      let e := fresh "e" in let s1 := fresh "s" in let E := fresh "Hopen" in
      destruct (OpenKey h k s) as [[[]|e] s1] eqn:E
  | |- context [QueryValueEx ?h ?k ?n ?s] =>
      let e := fresh "e" in let s1 := fresh "s" in let E := fresh "Hquery" in
      let stored := fresh "stored" in let ty := fresh "ty" in
      destruct (QueryValueEx h k n s) as [[[stored ty]|e] s1] eqn:E
  end; cbn -[String.append Z.add].

Ltac run_attempt :=
  unfold write_attempt, bind, modify, winreg_call, log_success, emit, ret;
  cbn -[String.append Z.add];
  repeat next_answer;
  repeat match goal with
    | |- context [value_eqb ?a ?b] =>
        let E := fresh "Hsame" in destruct (value_eqb a b) eqn:E;
        cbn -[String.append Z.add]
    end.

(** * Properties *)

(** ** Values and strings *)

Lemma value_eqb_eq (a b : Value) : value_eqb a b = true <-> a = b.
Proof.
  destruct a as [s|n], b as [t|m]; simpl; split; intros E;
    try discriminate; try (inversion E; subst).
  - apply String.eqb_eq in E. now subst.
  - apply String.eqb_refl.
  - apply Z.eqb_eq in E. now subst.
  - apply Z.eqb_refl.
Qed.

Lemma append_assoc (a b c : string) : (a +:+ b) +:+ c = a +:+ (b +:+ c).
Proof.
  induction a as [|x a IH]; [reflexivity|].
  change (String x ((a +:+ b) +:+ c) = String x (a +:+ (b +:+ c))).
  now f_equal.
Qed.


Lemma Substring_skip (s x t : string) : Substring s t -> Substring s (x +:+ t).
Proof.
  intros (b & a & ->). exists (x +:+ b), a. symmetry. apply append_assoc.
Qed.

(** ** Frames of the logger and of the registry writer *)

Section Frames.
Context {Store : Type} {winreg : Winreg Store} {X : Type}.
Variable view : State Store -> X.

Lemma keeps_ret {A : Type} (a : A) : keeps view (ret a).
Proof. intros st. reflexivity. Qed.

Lemma keeps_raise {A : Type} (e : Exn) : keeps view (@raise Store A e).
Proof. intros st. reflexivity. Qed.

Lemma keeps_gets {A : Type} (f : State Store -> A) : keeps view (gets f).
Proof. intros st. reflexivity. Qed.

Lemma keeps_lift {A : Type} (r : Result A) : keeps view (lift r).
Proof. intros st. reflexivity. Qed.

Lemma keeps_modify (f : State Store -> State Store) :
  (forall st, view (f st) = view st) -> keeps view (modify f).
Proof. intros Hf st. apply Hf. Qed.

Lemma keeps_bind {A B : Type} (c : M A) (k : A -> M B) :
  keeps view c -> (forall a, keeps view (k a)) -> keeps view (bind c k).
Proof.
  intros Hc Hk st. unfold bind. specialize (Hc st).
  destruct (c st) as [[a|e] st1]; simpl in *.
  - now rewrite Hk.
  - exact Hc.
Qed.

Lemma keeps_try_except {A : Type} (c : M A) (h : Exn -> M A) :
  keeps view c -> (forall e, keeps view (h e)) -> keeps view (try_except c h).
Proof.
  intros Hc Hh st. unfold try_except. specialize (Hc st).
  destruct (c st) as [[a|e] st1]; simpl in *.
  - exact Hc.
  - now rewrite Hh.
Qed.

Lemma keeps_if {A : Type} (b : bool) (c d : M A) :
  keeps view c -> keeps view d -> keeps view (if b then c else d).
Proof. now destruct b. Qed.

Lemma keeps_emit (e : Event) : blind_events view -> keeps view (emit e).
Proof. intros H. apply keeps_modify. intros st. apply H. Qed.

Lemma keeps_log_info (m c : string) : blind_events view -> keeps view (log_info m c).
Proof.
  intros H. unfold log_info. apply keeps_bind; [now apply keeps_emit|].
  intros _. apply keeps_if; [now apply keeps_emit | apply keeps_ret].
Qed.

Lemma keeps_log_warning (m : string) : blind_events view -> keeps view (log_warning m).
Proof.
  intros H. unfold log_warning.
  apply keeps_bind; [now apply keeps_emit|]. intros _. now apply keeps_emit.
Qed.

Lemma keeps_log_error (m : string) :
  blind_events view -> blind_error_count view -> keeps view (log_error m).
Proof.
  intros H He. unfold log_error.
  apply keeps_bind; [now apply keeps_emit|]. intros _.
  apply keeps_bind; [now apply keeps_emit|]. intros _.
  apply keeps_modify. intros st. apply He.
Qed.

Lemma keeps_log_success (m : string) :
  blind_events view -> blind_success_count view -> keeps view (log_success m).
Proof.
  intros H Hs. unfold log_success.
  apply keeps_bind; [now apply keeps_emit|]. intros _.
  apply keeps_bind; [now apply keeps_emit|]. intros _.
  apply keeps_modify. intros st. apply Hs.
Qed.

Lemma keeps_winreg_call {A : Type} (c : StoreCall) (op : Store -> Result A * Store) :
  blind_registry view -> keeps view (winreg_call c op).
Proof.
  intros H st. unfold winreg_call. destruct (op (registry st)) as [r s]. apply H.
Qed.

Lemma keeps_write_attempt hive key_path value_name value_data value_type :
  blind_to_writer view ->
  keeps view (write_attempt hive key_path value_name value_data value_type).
Proof.
  intros (He & Ho & Hs & Hr & Hw). unfold write_attempt.
  apply keeps_bind; [apply keeps_modify; intros st; apply Ho|]. intros _.
  apply keeps_bind; [now apply keeps_winreg_call|]. intros _.
  apply keeps_bind; [now apply keeps_winreg_call|]. intros _.
  apply keeps_bind; [now apply keeps_winreg_call|]. intros _.
  apply keeps_bind; [now apply keeps_winreg_call|]. intros stored.
  apply keeps_if; [|apply keeps_ret].
  apply keeps_bind; [now apply keeps_log_success | intros _; apply keeps_ret].
Qed.

Lemma keeps_attempt_failed attempt max_retries key_path value_name e :
  blind_to_writer view ->
  keeps view (attempt_failed attempt max_retries key_path value_name e).
Proof.
  intros (He & Ho & Hs & Hr & Hw). unfold attempt_failed.
  apply keeps_if; [now apply keeps_log_warning | now apply keeps_log_error].
Qed.

Lemma keeps_retry_loop remaining attempt max_retries hive key_path value_name
    value_data value_type :
  blind_to_writer view ->
  keeps view (retry_loop remaining attempt max_retries hive key_path value_name
           value_data value_type).
Proof.
  intros H. revert attempt.
  induction remaining as [|n IH]; intros attempt; simpl; [apply keeps_ret|].
  apply keeps_bind.
  - apply keeps_try_except; [now apply keeps_write_attempt|].
    intros e. apply keeps_bind; [now apply keeps_attempt_failed|].
    intros _. apply keeps_ret.
  - intros [b|]; [apply keeps_ret | apply IH].
Qed.

Lemma keeps_set_registry_value env hive key_path value_name value_data value_type :
  blind_to_writer view ->
  keeps view (set_registry_value env hive key_path value_name value_data value_type).
Proof.
  intros H. unfold set_registry_value. apply keeps_if.
  - destruct H as (He & Ho & Hs & Hr & Hw).
    apply keeps_bind; [now apply keeps_log_info|]. intros _.
    apply keeps_bind; [apply keeps_modify; intros st; apply Hs|]. intros _.
    apply keeps_ret.
  - apply keeps_bind; [apply keeps_gets|]. intros m. now apply keeps_retry_loop.
Qed.

Lemma keeps_apply_core env settings success :
  blind_to_writer view -> keeps view (apply_core env settings success).
Proof.
  intros H. revert success.
  induction settings as [|[n v] rest IH]; intros success; simpl; [apply keeps_ret|].
  apply keeps_bind; [now apply keeps_set_registry_value|]. intros ok. apply IH.
Qed.

Lemma keeps_apply_demo settings :
  blind_to_writer view -> keeps view (apply_demo settings).
Proof.
  intros (He & Ho & Hs & Hr & Hw).
  induction settings as [|[n v] rest IH]; simpl; [apply keeps_ret|].
  apply keeps_bind; [now apply keeps_log_info|]. intros _.
  apply keeps_bind; [apply keeps_modify; intros st; apply Ho|]. intros _.
  apply keeps_bind; [apply keeps_modify; intros st; apply Hs|]. intros _.
  exact IH.
Qed.

End Frames.

Lemma outside_writer_blind {Store : Type} : blind_to_writer (@outside_writer Store).
Proof. repeat split; intros; reflexivity. Qed.

(** ** The registry writer *)

Lemma attempts_app (a b : list StoreCall) : attempts (a ++ b) = attempts a + attempts b.
Proof. induction a as [|c a IH]; simpl; [reflexivity | rewrite IH; lia]. Qed.

Lemma attempt_trace_one (full made rest : list StoreCall) :
  full = made ++ rest -> made <> [] -> attempt_trace full made.
Proof.
  intros Hf Hm. rewrite <- (app_nil_r made).
  eapply trace_attempt; eauto using trace_nil.
Qed.

Section Writer.
Context {Store : Type} {winreg : Winreg Store}.
Variables (hive : HKEY) (key_path value_name : string)
          (value_data : Value) (value_type : Z).

(** What one attempt can come to.  It always counts one operation and
    opens with [CreateKey]; it returns [True] only with the four calls
    made and the read-back equal to the data; it touches the success
    counter only then and never the error counter. *)
Lemma write_attempt_spec (st : State Store) :
  exists r st' new,
    write_attempt hive key_path value_name value_data value_type st = (r, st')
    /\ registry_calls st' = registry_calls st ++ new
    /\ attempts new = 1
    /\ (exists rest,
          attempt_calls hive key_path value_name value_data value_type = new ++ rest)
    /\ operation_count st' = operation_count st + 1
    /\ error_count st' = error_count st
    /\ success_count st' =
         success_count st + (match r with Ok (Some true) => 1 | _ => 0 end)
    /\ r <> Ok (Some false)
    /\ (r = Ok (Some true) ->
          new = attempt_calls hive key_path value_name value_data value_type
          /\ exists s1 s2 s3 stored ty,
               CreateKey hive key_path (registry st) = (Ok tt, s1)
               /\ SetValueEx hive key_path value_name value_type value_data s1 = (Ok tt, s2)
               /\ OpenKey hive key_path s2 = (Ok tt, s3)
               /\ QueryValueEx hive key_path value_name s3 = (Ok (stored, ty), registry st')
               /\ stored = value_data).
Proof.
  run_attempt; do 3 eexists; (split; [reflexivity|]); cbn -[String.append Z.add];
    (split; [rewrite <- ?app_assoc; simpl; reflexivity|]);
    (split; [reflexivity|]);
    (split; [eexists; unfold attempt_calls; cbn [app]; reflexivity|]);
    (split; [reflexivity|]); (split; [reflexivity|]);
    (split; [lia|]); (split; [intros Hr; discriminate Hr|]);
    intros Hr; try discriminate Hr.
  split; [reflexivity|].
  exists s, s0, s1, stored, ty. repeat split; trivial.
  now apply value_eqb_eq.
Qed.

Lemma attempt_failed_spec attempt max_retries e (st : State Store) :
  exists st',
    attempt_failed attempt max_retries key_path value_name e st = (Ok tt, st')
    /\ registry_calls st' = registry_calls st
    /\ registry st' = registry st
    /\ operation_count st' = operation_count st
    /\ success_count st' = success_count st
    /\ error_count st' =
         error_count st + (if attempt <? max_retries - 1 then 0 else 1).
Proof.
  unfold attempt_failed. destruct (attempt <? max_retries - 1);
    eexists; (split; [reflexivity|]); cbn -[String.append Z.add];
    repeat split; lia.
Qed.

(** The loop: it never raises; it counts one operation per attempt; it
    stops at the first attempt that verifies and otherwise uses up its
    iterations; a [True] comes from a verified write; and at most the
    last iteration reports an error. *)
Lemma retry_loop_spec (remaining : nat) (attempt max_retries : Z) (st : State Store) :
  exists b st' new,
    retry_loop remaining attempt max_retries hive key_path value_name
      value_data value_type st = (Ok b, st')
    /\ registry_calls st' = registry_calls st ++ new
    /\ attempt_trace (attempt_calls hive key_path value_name value_data value_type) new
    /\ operation_count st' = operation_count st + attempts new
    /\ attempts new <= Z.of_nat remaining
    /\ success_count st' = success_count st + (if b then 1 else 0)
    /\ (b = false -> attempts new = Z.of_nat remaining)
    /\ (b = true ->
          1 <= attempts new
          /\ exists earlier s,
               new = earlier ++ attempt_calls hive key_path value_name value_data value_type
               /\ verified hive key_path value_name value_data value_type
                    s (registry st'))
    /\ (attempt + Z.of_nat remaining = max_retries ->
          error_count st <= error_count st' <= error_count st + 1).
Proof.
  revert attempt st. induction remaining as [|n IH]; intros attempt st.
  - exists false, st, []. cbn -[Z.add]. rewrite app_nil_r.
    repeat split; try lia; try discriminate. apply trace_nil.
  - cbn [retry_loop]. unfold bind at 1. unfold try_except.
    destruct (write_attempt_spec st)
      as (r & st1 & new1 & Hrun & Hcalls & Hone & Hpre & Hop & Herr & Hsucc & Hnf & Hver).
    assert (new1 <> []) as Hne by (intros ->; discriminate Hone).
    destruct Hpre as (rest1 & Hpre).
    rewrite Hrun. destruct r as [[[|]|]|e].
    + (* the attempt verified *)
      destruct (Hver eq_refl) as (-> & s1 & s2 & s3 & stored & ty & H1 & H2 & H3 & H4 & H5).
      exists true, st1, (attempt_calls hive key_path value_name value_data value_type).
      cbn -[Z.add attempts Z.of_nat].
      split; [reflexivity|]. split; [exact Hcalls|].
      split; [now apply (attempt_trace_one _ _ []); [rewrite app_nil_r|]|].
      split; [rewrite Hone; exact Hop|]. split; [lia|]. split; [lia|].
      split; [discriminate|]. split; [|lia].
      intros _. split; [lia|].
      exists [], (registry st). split; [reflexivity|].
      exists s1, s2, s3, stored, ty. repeat split; assumption.
    + now contradiction Hnf.
    + (* the read-back differs: the loop goes on *)
      destruct (IH (attempt + 1) st1)
        as (b & st2 & new2 & Hloop & Hc2 & Htr & Ho2 & Hle & Hs2 & Hf & Ht & He).
      exists b, st2, (new1 ++ new2). cbn -[Z.add attempts Z.of_nat].
      rewrite Hloop, attempts_app, Hone.
      split; [reflexivity|].
      split; [rewrite Hc2, Hcalls; now rewrite app_assoc|].
      split; [now apply (trace_attempt _ new1 rest1 new2)|].
      split; [lia|]. split; [lia|]. split; [lia|].
      split; [intros Hb; specialize (Hf Hb); lia|].
      split.
      * intros Hb. destruct (Ht Hb) as (Hge & earlier & s & -> & Hv).
        split; [lia|]. exists (new1 ++ earlier), s.
        split; [now rewrite app_assoc | exact Hv].
      * intros Hsum. assert (error_count st2 - error_count st1 <= 1
                             /\ 0 <= error_count st2 - error_count st1) by lia. lia.
    + (* the attempt raised *)
      destruct (attempt_failed_spec attempt max_retries e st1)
        as (st1' & Hfail & Hfc & Hfr & Hfo & Hfs & Hfe).
      unfold bind at 1. rewrite Hfail. cbn [ret].
      destruct (IH (attempt + 1) st1')
        as (b & st2 & new2 & Hloop & Hc2 & Htr & Ho2 & Hle & Hs2 & Hf & Ht & He).
      exists b, st2, (new1 ++ new2). rewrite Hloop, attempts_app, Hone.
      split; [reflexivity|].
      split; [rewrite Hc2, Hfc, Hcalls; now rewrite app_assoc|].
      split; [now apply (trace_attempt _ new1 rest1 new2)|].
      split; [lia|]. split; [lia|]. split; [lia|].
      split; [intros Hb; specialize (Hf Hb); lia|].
      split.
      * intros Hb. destruct (Ht Hb) as (Hge & earlier & s & -> & Hv).
        split; [lia|]. exists (new1 ++ earlier), s.
        split; [now rewrite app_assoc | exact Hv].
      * intros Hsum. rewrite Hfe in *.
        destruct n as [|n'].
        -- (* last iteration: the loop below is empty *)
           cbn in Hloop. injection Hloop as <- <-.
           destruct (attempt <? max_retries - 1) eqn:E; lia.
        -- assert ((attempt <? max_retries - 1) = true) as E
             by (apply Z.ltb_lt; lia).
           rewrite E in *. lia.
Qed.

(** When every attempt raises, the loop uses all its iterations and the
    last one reports the failure: one error is counted. *)
Lemma retry_loop_all_raise (remaining : nat) (attempt max_retries : Z)
    (st : State Store) :
  (forall st0, exists e st1,
      write_attempt hive key_path value_name value_data value_type st0 = (Raise e, st1)) ->
  attempt + Z.of_nat remaining = max_retries ->
  exists st',
    retry_loop remaining attempt max_retries hive key_path value_name
      value_data value_type st = (Ok false, st')
    /\ error_count st' = error_count st + (if Nat.eqb remaining 0 then 0 else 1).
Proof.
  intros Hraise. revert attempt st.
  induction remaining as [|n IH]; intros attempt st Hsum.
  - exists st. split; [reflexivity | cbn; lia].
  - cbn [retry_loop]. unfold bind at 1. unfold try_except.
    destruct (Hraise st) as (e & st1 & Hrun).
    destruct (write_attempt_spec st)
      as (r & st1' & new1 & Hrun' & _ & _ & _ & _ & Herr & _).
    rewrite Hrun in Hrun'. injection Hrun' as <- <-. rewrite Hrun.
    destruct (attempt_failed_spec attempt max_retries e st1)
      as (st2 & Hfail & _ & _ & _ & _ & Hfe).
    unfold bind at 1. rewrite Hfail. cbn [ret].
    destruct (IH (attempt + 1) st2 ltac:(lia)) as (st' & Hloop & He).
    exists st'. split; [exact Hloop|]. rewrite He, Hfe, Herr.
    destruct n as [|n']; cbn [Nat.eqb].
    + assert ((attempt <? max_retries - 1) = false) as E by (apply Z.ltb_ge; lia).
      rewrite E. lia.
    + assert ((attempt <? max_retries - 1) = true) as E by (apply Z.ltb_lt; lia).
      rewrite E. lia.
Qed.

(** When every attempt writes and reads back something else, the loop
    uses all its iterations and returns [False] with nothing logged and
    no error counted. *)
Lemma retry_loop_all_differ (remaining : nat) (attempt max_retries : Z)
    (st : State Store) :
  (forall st0, exists st1,
      write_attempt hive key_path value_name value_data value_type st0 = (Ok None, st1)
      /\ events st1 = events st0) ->
  exists st',
    retry_loop remaining attempt max_retries hive key_path value_name
      value_data value_type st = (Ok false, st')
    /\ error_count st' = error_count st
    /\ events st' = events st.
Proof.
  intros Hdiffer. revert attempt st.
  induction remaining as [|n IH]; intros attempt st.
  - exists st. repeat split.
  - cbn [retry_loop]. unfold bind at 1. unfold try_except.
    destruct (Hdiffer st) as (st1 & Hrun & Hev).
    destruct (write_attempt_spec st)
      as (r & st1' & new1 & Hrun' & _ & _ & _ & _ & Herr & _).
    rewrite Hrun in Hrun'. injection Hrun' as <- <-. rewrite Hrun.
    destruct (IH (attempt + 1) st1) as (st' & Hloop & He & Hevs).
    exists st'. split; [exact Hloop|]. split; congruence.
Qed.

End Writer.

Section WriterCalls.
Context {Store : Type} {winreg : Winreg Store} (env : Env).
Variables (hive : HKEY) (key_path value_name : string)
          (value_data : Value) (value_type : option Z).

(** [set_registry_value] on Windows. *)
Lemma set_registry_value_live (st : State Store) :
  WINDOWS_AVAILABLE env = true ->
  exists b st' new,
    set_registry_value env hive key_path value_name value_data value_type st
      = (Ok b, st')
    /\ registry_calls st' = registry_calls st ++ new
    /\ attempt_trace (attempt_calls hive key_path value_name value_data (the_type value_type)) new
    /\ operation_count st' = operation_count st + attempts new
    /\ attempts new <= iterations st
    /\ success_count st' = success_count st + (if b then 1 else 0)
    /\ (b = false -> attempts new = iterations st)
    /\ (b = true ->
          1 <= attempts new
          /\ exists earlier s,
               new = earlier ++ attempt_calls hive key_path value_name value_data (the_type value_type)
               /\ verified hive key_path value_name value_data (the_type value_type) s (registry st'))
    /\ error_count st <= error_count st' <= error_count st + 1.
Proof.
  intros Hwin. unfold set_registry_value. rewrite Hwin. cbn [negb].
  unfold bind at 1, gets. fold (the_type value_type).
  destruct (retry_loop_spec hive key_path value_name value_data (the_type value_type)
              (Z.to_nat (maxRetries (user_config st))) 0
              (maxRetries (user_config st)) st)
    as (b & st' & new & Hrun & Hc & Htr & Ho & Hle & Hs & Hf & Ht & He).
  exists b, st', new. unfold iterations.
  split; [exact Hrun|]. split; [exact Hc|]. split; [exact Htr|]. split; [exact Ho|].
  split; [lia|]. split; [exact Hs|]. split; [intros Hb; specialize (Hf Hb); lia|].
  split; [exact Ht|].
  destruct (Z.le_gt_cases 0 (maxRetries (user_config st))) as [Hpos|Hneg].
  - apply He. lia.
  - (* a negative bound: no iteration at all *)
    assert (Z.to_nat (maxRetries (user_config st)) = 0%nat) as Hz by lia.
    rewrite Hz in Hrun. cbn in Hrun. injection Hrun as <- <-. lia.
Qed.

(** [set_registry_value] in demonstration mode: one success counted,
    nothing attempted. *)
Lemma set_registry_value_demo (st : State Store) :
  WINDOWS_AVAILABLE env = false ->
  exists st',
    set_registry_value env hive key_path value_name value_data value_type st
      = (Ok true, st')
    /\ success_count st' = success_count st + 1
    /\ operation_count st' = operation_count st
    /\ error_count st' = error_count st
    /\ registry st' = registry st
    /\ registry_calls st' = registry_calls st.
Proof.
  intros Hdemo. unfold set_registry_value. rewrite Hdemo. cbn [negb].
  eexists. split; [reflexivity|]. cbn -[String.append Z.add]. repeat split.
Qed.


End WriterCalls.

(** ** The locale catalogue and its cache *)

Section Catalogue.
Context {Store : Type} {winreg : Winreg Store} (env : Env).

Lemma catalogue_supported (locale : string) (p : Profile) :
  catalogue locale = Some p -> supported locale = true.
Proof.
  unfold catalogue, supported.
  destruct (dict_get SUPPORTED_LOCALES locale); [reflexivity | discriminate].
Qed.

Lemma supported_catalogue (locale : string) :
  supported locale = true -> exists p, catalogue locale = Some p.
Proof.
  unfold catalogue, supported.
  destruct (dict_get SUPPORTED_LOCALES locale); [eauto | discriminate].
Qed.

(** A supported locale resolves to its catalogue profile, cached or not,
    and the cache stays faithful. *)
Lemma get_locale_settings_supported (locale : string) (p : Profile) (st : State Store) :
  cache_faithful st ->
  catalogue locale = Some p ->
  exists st',
    _get_locale_settings locale st = (Ok p, st')
    /\ cache_faithful st'
    /\ LOCALE_SETTINGS_CACHE st' !! locale = Some p
    /\ st' = with_cache (LOCALE_SETTINGS_CACHE st') st.
Proof.
  intros Hc Hp. unfold _get_locale_settings, bind, gets.
  destruct (LOCALE_SETTINGS_CACHE st !! locale) as [q|] eqn:Hq.
  - apply Hc in Hq as Hq'. rewrite Hp in Hq'. injection Hq' as <-.
    exists st. repeat split; trivial. now destruct st.
  - pose proof Hp as Hp'. unfold catalogue in Hp'. unfold default_profile.
    destruct (dict_get SUPPORTED_LOCALES locale) as [name|] eqn:E; [|discriminate].
    injection Hp' as <-. unfold ret, modify. cbn -[String.append].
    eexists. split; [reflexivity|]. split; [|split].
    + intros l q. cbn. rewrite lookup_insert. case_decide as Hl.
      * subst l. intros [= <-]. unfold catalogue. now rewrite E.
      * apply Hc.
    + cbn. now rewrite lookup_insert_eq.
    + reflexivity.
Qed.

(** A locale outside the supported set raises [KeyError] and leaves the
    state as it was. *)
Lemma get_locale_settings_unsupported (locale : string) (st : State Store) :
  cache_faithful st ->
  supported locale = false ->
  exists e,
    _get_locale_settings locale st = (Raise e, st) /\ exn_class e = KeyError.
Proof.
  intros Hc Hu. unfold _get_locale_settings, bind, gets.
  destruct (LOCALE_SETTINGS_CACHE st !! locale) as [q|] eqn:Hq.
  - apply Hc, catalogue_supported in Hq. congruence.
  - unfold default_profile. unfold supported in Hu.
    destruct (dict_get SUPPORTED_LOCALES locale); [discriminate|].
    eexists. split; reflexivity.
Qed.

End Catalogue.

(** ** Frames of the backup routine and of the report *)

Section BackupFrames.
Context {Store : Type} {winreg : Winreg Store} {X : Type}.
Variable view : State Store -> X.

Lemma keeps_os_makedirs answer path :
  blind_to_backup view -> keeps view (os_makedirs answer path).
Proof.
  intros (_ & _ & _ & _ & Hd & _) st. unfold os_makedirs.
  destruct answer; [apply Hd | reflexivity].
Qed.

Lemma keeps_subprocess_run answer cmd :
  blind_to_backup view -> keeps view (subprocess_run answer cmd).
Proof.
  intros (_ & _ & _ & _ & _ & Hc & Hf) st. unfold subprocess_run.
  destruct answer as [[rc err]|e]; cbn [snd]; [|apply Hc].
  unfold command_effect.
  destruct cmd as [|a [|b [|c [|d [|x [|y r]]]]]]; try apply Hc.
  destruct (_ && _ && _)%bool; [rewrite Hf|]; apply Hc.
Qed.

Lemma keeps_create_backup env registry_path backup_name io :
  blind_to_backup view -> keeps view (create_backup env registry_path backup_name io).
Proof.
  intros H. pose proof H as (He & Hs & Hr & Hp & Hd & Hc & Hf).
  unfold create_backup. apply keeps_if.
  - apply keeps_bind; [now apply keeps_log_warning | intros _; apply keeps_ret].
  - apply keeps_try_except.
    + apply keeps_bind; [apply keeps_gets|]. intros current.
      apply keeps_bind.
      { apply keeps_if; [|apply keeps_ret].
        apply keeps_bind; [apply keeps_modify; intros st; apply Hp|].
        intros _. now apply keeps_os_makedirs. }
      intros _. apply keeps_bind; [apply keeps_gets|]. intros dir.
      apply keeps_bind; [now apply keeps_subprocess_run|]. intros result.
      apply keeps_if.
      * apply keeps_bind; [now apply keeps_log_success | intros _; apply keeps_ret].
      * apply keeps_bind; [now apply keeps_log_error | intros _; apply keeps_ret].
    + intros e.
      apply keeps_bind; [now apply keeps_log_error | intros _; apply keeps_ret].
Qed.

Lemma keeps_generate_statistics_report :
  keeps view (@generate_statistics_report Store).
Proof.
  unfold generate_statistics_report.
  apply keeps_bind; [apply keeps_gets|]. intros st.
  apply keeps_bind; [apply keeps_lift|]. intros q. apply keeps_ret.
Qed.

End BackupFrames.

(** ** Applying a locale *)

Section Apply.
Context {Store : Type} {winreg : Winreg Store} (env : Env).

Lemma log_info_white (message : string) (st : State Store) :
  log_info message Colors.WHITE st
  = (Ok tt, with_events (events st ++ [Logged INFO message]) st).
Proof. unfold log_info, bind, emit, modify. now rewrite String.eqb_refl. Qed.

Lemma cache_blind_to_writer : blind_to_writer (@LOCALE_SETTINGS_CACHE Store).
Proof. repeat split. Qed.

Lemma cache_blind_to_backup : blind_to_backup (@LOCALE_SETTINGS_CACHE Store).
Proof. repeat split. Qed.

Lemma cache_faithful_same (st st' : State Store) :
  LOCALE_SETTINGS_CACHE st' = LOCALE_SETTINGS_CACHE st ->
  cache_faithful st -> cache_faithful st'.
Proof. intros E H l p. rewrite E. apply H. Qed.

(** [apply_locale_settings] on a supported locale: the profile is the
    catalogue's and the branch taken runs in a state that differs from
    the announced one by the cache entry at most. *)
Lemma apply_locale_settings_resolved (locale : string) (p : Profile) (st : State Store) :
  cache_faithful st ->
  catalogue locale = Some p ->
  exists st1,
    _get_locale_settings locale (announced locale st) = (Ok p, st1)
    /\ cache_faithful st1
    /\ st1 = with_cache (LOCALE_SETTINGS_CACHE st1) (announced locale st)
    /\ apply_locale_settings env locale st
       = (if WINDOWS_AVAILABLE env
          then apply_core env p true
          else demo_branch locale p) st1.
Proof.
  intros Hc Hp.
  destruct (get_locale_settings_supported locale p (announced locale st))
    as (st1 & Hget & Hc1 & _ & Hst1); [exact Hc | exact Hp |].
  exists st1. repeat split; trivial.
  unfold apply_locale_settings. unfold bind at 1. rewrite log_info_white.
  fold (announced locale st). unfold bind at 1. rewrite Hget.
  now destruct (WINDOWS_AVAILABLE env).
Qed.

Lemma keeps_cache_branch (locale : string) (p : Profile) :
  keeps (@LOCALE_SETTINGS_CACHE Store)
    (if WINDOWS_AVAILABLE env then apply_core env p true else demo_branch locale p).
Proof.
  apply keeps_if.
  - apply keeps_apply_core, cache_blind_to_writer.
  - apply keeps_bind; [apply keeps_log_info; repeat split|]. intros _.
    apply keeps_bind; [apply keeps_apply_demo, cache_blind_to_writer|].
    intros _. apply keeps_ret.
Qed.

(** Faithfulness of the cache is an invariant of the process. *)
Lemma cache_faithful_apply_locale_settings (locale : string) (st : State Store) :
  cache_faithful st ->
  cache_faithful (snd (apply_locale_settings env locale st)).
Proof.
  intros Hc. destruct (catalogue locale) as [p|] eqn:Hp.
  - destruct (apply_locale_settings_resolved locale p st Hc Hp)
      as (st1 & _ & Hc1 & _ & ->).
    eapply cache_faithful_same; [apply keeps_cache_branch | exact Hc1].
  - assert (supported locale = false) as Hu.
    { destruct (supported locale) eqn:E; [|reflexivity].
      apply supported_catalogue in E as (q & Hq). congruence. }
    destruct (get_locale_settings_unsupported locale (announced locale st) Hc Hu)
      as (e & Hget & _).
    unfold apply_locale_settings. unfold bind at 1. rewrite log_info_white.
    fold (announced locale st). unfold bind at 1. rewrite Hget. exact Hc.
Qed.

Lemma reachable_cache_faithful (st : State Store) :
  reachable env st -> cache_faithful st.
Proof.
  induction 1 as [r d f|cfg logf w _ IH|locale st _ IH|h k n v t st _ IH
                  |rp bn io st _ IH|st _ IH].
  - intros l p. cbn. rewrite lookup_empty. discriminate.
  - exact IH.
  - now apply cache_faithful_apply_locale_settings.
  - eapply cache_faithful_same; [|exact IH].
    apply keeps_set_registry_value, cache_blind_to_writer.
  - eapply cache_faithful_same; [|exact IH].
    apply keeps_create_backup, cache_blind_to_backup.
  - eapply cache_faithful_same; [|exact IH].
    apply keeps_generate_statistics_report.
Qed.

(** C1. For every unsupported locale identifier [apply_locale_settings]
    fails before anything is written: it raises [KeyError] out of the
    catalogue lookup, the three counters are what they were, the registry
    is untouched and no call to it was made, and the cache, the backup
    path, the commands run and the file system are unchanged.  All that
    happened is the one [INFO] record announcing the locale.  The cache
    being faithful is an invariant of every reachable state
    ([reachable_cache_faithful]). *)
Theorem unsupported_locale_fails_before_any_write (locale : string) (st : State Store) :
  cache_faithful st ->
  supported locale = false ->
  exists e st',
    apply_locale_settings env locale st = (Raise e, st')
    /\ exn_class e = KeyError
    /\ operation_count st' = operation_count st
    /\ success_count st' = success_count st
    /\ error_count st' = error_count st
    /\ registry st' = registry st
    /\ registry_calls st' = registry_calls st
    /\ outside_writer st' = outside_writer st
    /\ events st' = events st ++ [Logged INFO ("Applying settings for locale: " +:+ locale)].
Proof.
  intros Hc Hu.
  destruct (get_locale_settings_unsupported locale (announced locale st) Hc Hu)
    as (e & Hget & He).
  exists e, (announced locale st). split.
  - unfold apply_locale_settings. unfold bind at 1. rewrite log_info_white.
    fold (announced locale st). unfold bind at 1. now rewrite Hget.
  - repeat split; trivial.
Qed.

Lemma apply_demo_spec (settings : Profile) (st : State Store) :
  exists st',
    apply_demo settings st = (Ok tt, st')
    /\ operation_count st' = operation_count st + Z.of_nat (length settings)
    /\ success_count st' = success_count st + Z.of_nat (length settings)
    /\ error_count st' = error_count st
    /\ events st' = events st ++ demo_lines settings
    /\ registry st' = registry st
    /\ registry_calls st' = registry_calls st.
Proof.
  revert st. induction settings as [|[n v] rest IH]; intros st.
  - exists st. cbn. rewrite app_nil_r. repeat split; lia.
  - cbn [apply_demo]. unfold bind at 1. rewrite log_info_white.
    unfold bind at 1 2, modify.
    match goal with |- context [apply_demo rest ?s] => destruct (IH s)
      as (st' & Hrun & Ho & Hs & He & Hev & Hr & Hc) end.
    exists st'. rewrite Hrun. split; [reflexivity|].
    cbn -[Z.add Z.of_nat String.append] in *.
    rewrite Ho, Hs, He, Hev, Hr, Hc, <- app_assoc.
    repeat split; lia.
Qed.

Lemma demo_branch_spec (locale : string) (settings : Profile) (st : State Store) :
  exists st',
    demo_branch locale settings st = (Ok true, st')
    /\ operation_count st' = operation_count st + Z.of_nat (length settings)
    /\ success_count st' = success_count st + Z.of_nat (length settings)
    /\ error_count st' = error_count st
    /\ events st' =
         events st
         ++ Logged INFO ("[DEMO MODE] Applying " +:+ str_int (Z.of_nat (length settings))
                         +:+ " settings for " +:+ locale)
         :: demo_lines settings
    /\ registry st' = registry st
    /\ registry_calls st' = registry_calls st.
Proof.
  unfold demo_branch. unfold bind at 1. rewrite log_info_white. unfold bind at 1.
  match goal with |- context [apply_demo settings ?s] => destruct (apply_demo_spec settings s)
    as (st' & Hrun & Ho & Hs & He & Hev & Hr & Hc) end.
  exists st'. rewrite Hrun. split; [reflexivity|].
  cbn -[Z.add Z.of_nat String.append] in *.
  rewrite Ho, Hs, He, Hev, Hr, Hc, <- app_assoc. repeat split.
Qed.




(** The report needs no state change and cannot raise: the divisor is at
    least one. *)
Lemma generate_statistics_report_value (st : State Store) :
  generate_statistics_report st
  = (Ok (report_text (operation_count st) (success_count st) (error_count st)
           (inject_Z (success_count st) / inject_Z (Z.max (operation_count st) 1) * 100)%Q
           (log_file st) (backup_path st)),
     st).
Proof.
  unfold generate_statistics_report, bind, gets, lift, truediv.
  destruct (Z.eqb_spec (Z.max (operation_count st) 1) 0) as [E|_]; [lia | reflexivity].
Qed.



End Apply.

(** ** Properties of the registry writer *)

Section WriterClaims.
Context {Store : Type} {winreg : Winreg Store} (env : Env).

(** C2 (as amended). The operation counter counts write attempts, not
    keys.  On Windows one call of [set_registry_value] returns, and it
    raises [operation_count] by the number of attempts it made, each
    opening with [CreateKey]: at least one and at most [maxRetries] when
    the write succeeds, exactly [maxRetries] (none for a bound below one)
    when it fails.  In demonstration mode [apply_locale_settings] raises
    the counter by exactly one per key of the profile. *)
Theorem operation_count_counts_attempts
    (hive : HKEY) (key_path value_name : string) (value_data : Value)
    (value_type : option Z) (st : State Store) :
  (WINDOWS_AVAILABLE env = true ->
   exists b st' new,
     set_registry_value env hive key_path value_name value_data value_type st
       = (Ok b, st')
     /\ registry_calls st' = registry_calls st ++ new
     /\ operation_count st' = operation_count st + attempts new
     /\ attempts new <= iterations st
     /\ (b = true -> 1 <= attempts new)
     /\ (b = false -> attempts new = iterations st))
  /\ (forall locale p,
        WINDOWS_AVAILABLE env = false ->
        cache_faithful st ->
        catalogue locale = Some p ->
        exists st',
          apply_locale_settings env locale st = (Ok true, st')
          /\ operation_count st' = operation_count st + Z.of_nat (length p)).
Proof.
  split.
  - intros Hwin.
    destruct (set_registry_value_live env hive key_path value_name value_data
                value_type st Hwin)
      as (b & st' & new & Hrun & Hc & _ & Ho & Hle & _ & Hf & Ht & _).
    exists b, st', new. repeat split; trivial. intros Hb. now apply Ht.
  - intros locale p Hdemo Hc Hp.
    destruct (apply_locale_settings_resolved env locale p st Hc Hp)
      as (st1 & _ & _ & Hst1 & Hrun).
    rewrite Hdemo in Hrun.
    destruct (demo_branch_spec locale p st1) as (st' & Hb & Ho & _).
    exists st'. split; [now rewrite Hrun|]. rewrite Ho, Hst1. reflexivity.
Qed.

(** When every attempt raises, [set_registry_value] gives up after
    [maxRetries] attempts, returns [False] and counts one error, provided
    the bound allows an attempt at all. *)
Lemma set_registry_value_all_raise
    (hive : HKEY) (key_path value_name : string) (value_data : Value)
    (value_type : option Z) (st : State Store) :
  WINDOWS_AVAILABLE env = true ->
  1 <= maxRetries (user_config st) ->
  (forall st0, exists e st1,
      write_attempt hive key_path value_name value_data (the_type value_type) st0
      = (Raise e, st1)) ->
  exists st' new,
    set_registry_value env hive key_path value_name value_data value_type st
      = (Ok false, st')
    /\ registry_calls st' = registry_calls st ++ new
    /\ attempts new = maxRetries (user_config st)
    /\ error_count st' = error_count st + 1.
Proof.
  intros Hwin Hpos Hraise.
  destruct (set_registry_value_live env hive key_path value_name value_data
              value_type st Hwin)
    as (b & st' & new & Hrun & Hc & _ & _ & _ & _ & Hf & _).
  pose proof Hrun as Hrun'. unfold set_registry_value in Hrun'.
  rewrite Hwin in Hrun'. cbn [negb] in Hrun'. unfold bind at 1, gets in Hrun'.
  fold (the_type value_type) in Hrun'.
  destruct (retry_loop_all_raise hive key_path value_name value_data
              (the_type value_type) (Z.to_nat (maxRetries (user_config st))) 0
              (maxRetries (user_config st)) st Hraise ltac:(lia))
    as (st2 & Hloop & He).
  rewrite Hloop in Hrun'. injection Hrun' as <- <-.
  exists st2, new. split; [exact Hrun|]. split; [exact Hc|].
  split; [rewrite (Hf eq_refl); unfold iterations; lia|].
  rewrite He. destruct (Z.to_nat (maxRetries (user_config st))) eqn:E; [lia|].
  reflexivity.
Qed.

(** When every attempt reads back something else than it wrote,
    [set_registry_value] also gives up after [maxRetries] attempts and
    returns [False], but logs nothing and counts no error. *)
Lemma set_registry_value_all_differ
    (hive : HKEY) (key_path value_name : string) (value_data : Value)
    (value_type : option Z) (st : State Store) :
  WINDOWS_AVAILABLE env = true ->
  (forall st0, exists st1,
      write_attempt hive key_path value_name value_data (the_type value_type) st0
      = (Ok None, st1)
      /\ events st1 = events st0) ->
  exists st' new,
    set_registry_value env hive key_path value_name value_data value_type st
      = (Ok false, st')
    /\ registry_calls st' = registry_calls st ++ new
    /\ attempts new = iterations st
    /\ error_count st' = error_count st
    /\ events st' = events st.
Proof.
  intros Hwin Hdiffer.
  destruct (set_registry_value_live env hive key_path value_name value_data
              value_type st Hwin)
    as (b & st' & new & Hrun & Hc & _ & _ & _ & _ & Hf & _).
  pose proof Hrun as Hrun'. unfold set_registry_value in Hrun'.
  rewrite Hwin in Hrun'. cbn [negb] in Hrun'. unfold bind at 1, gets in Hrun'.
  fold (the_type value_type) in Hrun'.
  destruct (retry_loop_all_differ hive key_path value_name value_data
              (the_type value_type) (Z.to_nat (maxRetries (user_config st))) 0
              (maxRetries (user_config st)) st Hdiffer)
    as (st2 & Hloop & He & Hev).
  rewrite Hloop in Hrun'. injection Hrun' as <- <-.
  exists st2, new. repeat split; trivial. now apply Hf.
Qed.

End WriterClaims.



(** ** The statistics report *)

Lemma Substring2 (a b r : string) : Substring (a +:+ b) (a +:+ b +:+ r).
Proof. exists "", r. symmetry. apply (append_assoc a b r). Qed.

Lemma Substring3 (a b c r : string) :
  Substring (a +:+ b +:+ c) (a +:+ b +:+ c +:+ r).
Proof.
  exists "", r. change ("" +:+ ?x) with x.
  now rewrite !append_assoc.
Qed.

Lemma Substring4 (a b c d r : string) :
  Substring (a +:+ b +:+ c +:+ d) (a +:+ b +:+ c +:+ d +:+ r).
Proof.
  exists "", r. change ("" +:+ ?x) with x.
  now rewrite !append_assoc.
Qed.

Section Report.
Context {Store : Type}.

(** The lines of the report that carry the figures. *)
Lemma report_text_fields (operations successes errors : Z) (rate : Q)
    (logf backup : string) :
  let text := report_text operations successes errors rate logf backup in
  Substring ("  Total Operations: " +:+ str_int operations) text
  /\ Substring ("  Successful: " +:+ Colors.GREEN +:+ str_int successes) text
  /\ Substring ("  Failed: " +:+ Colors.RED +:+ str_int errors) text
  /\ Substring ("  Success Rate: " +:+ Colors.BLUE +:+ format_1f rate +:+ "%") text
  /\ Substring ("  Backup Directory: " +:+ Colors.WHITE
                +:+ (if String.eqb backup "" then "None created" else backup)) text.
Proof.
  unfold report_text, backup_text.
  split; [do 5 apply Substring_skip; apply Substring2|].
  split; [do 8 apply Substring_skip; apply Substring3|].
  split; [do 13 apply Substring_skip; apply Substring3|].
  split; [do 18 apply Substring_skip; apply Substring4|].
  do 35 apply Substring_skip; apply Substring3.
Qed.


End Report.

(** ** The backup routine *)

Section Backup.
Context {Store : Type} {winreg : Winreg Store} (env : Env).
Variables (registry_path backup_name : string) (io : BackupIO).

(** In demonstration mode [create_backup] warns and returns [False];
    nothing is created, run or counted. *)
Lemma create_backup_demo (st : State Store) :
  WINDOWS_AVAILABLE env = false ->
  exists st',
    create_backup env registry_path backup_name io st = (Ok false, st')
    /\ backup_path st' = backup_path st
    /\ directories st' = directories st
    /\ files st' = files st
    /\ commands st' = commands st
    /\ operation_count st' = operation_count st
    /\ success_count st' = success_count st
    /\ error_count st' = error_count st.
Proof.
  intros Hdemo. unfold create_backup. rewrite Hdemo. cbn [negb].
  eexists. split; [reflexivity|]. repeat split.
Qed.

(** On Windows: the call returns; the object's backup path is the
    directory of this call from now on; a new directory is made only when
    no path was set; the call reports success exactly when the directory
    was available and [reg export] exited with 0, and then it has run that
    one command and written that one file. *)
Lemma create_backup_live (st : State Store) :
  WINDOWS_AVAILABLE env = true ->
  exists b st',
    create_backup env registry_path backup_name io st = (Ok b, st')
    /\ backup_path st' = backup_dir_for env io st
    /\ operation_count st' = operation_count st
    /\ directories st' =
         (if String.eqb (backup_path st) ""
          then match makedirs_answer io with
               | Ok _ => {[ fresh_backup_path env io ]} ∪ directories st
               | Raise _ => directories st
               end
          else directories st)
    /\ (b = true <->
          (String.eqb (backup_path st) "" = false \/ exists u, makedirs_answer io = Ok u)
          /\ exists stderr, run_answer io = Ok (0, stderr))
    /\ (b = true ->
          files st' = {[ backup_file_in env backup_name (backup_dir_for env io st) ]} ∪ files st
          /\ commands st' = commands st ++ [export_command env registry_path backup_name (backup_dir_for env io st)]
          /\ success_count st' = success_count st + 1
          /\ error_count st' = error_count st)
    /\ (b = false ->
          files st' = files st
          /\ success_count st' = success_count st
          /\ error_count st' = error_count st + 1).
Proof.
  intros Hwin. unfold create_backup, backup_dir_for. rewrite Hwin. cbn [negb].
  unfold try_except, bind, gets, modify, os_makedirs, subprocess_run, ret,
    log_success, log_error, emit.
  cbn -[String.append Z.add String.eqb union singleton].
  destruct (String.eqb (backup_path st) "") eqn:Hpath;
    destruct (makedirs_answer io) as [[]|e1] eqn:Hmk;
    destruct (run_answer io) as [[rc stderr]|e2] eqn:Hrun;
    cbn -[String.append Z.add String.eqb union singleton];
    try (destruct (Z.eqb_spec rc 0) as [->|Hrc]);
    cbn -[String.append Z.add String.eqb union singleton];
    do 2 eexists; (split; [reflexivity|]);
    cbn -[String.append Z.add String.eqb union singleton];
    repeat match goal with
      | |- _ /\ _ => split
      | |- _ <-> _ => split
      | |- _ -> _ => intro
      end;
    try reflexivity; try discriminate; try lia; eauto;
    repeat match goal with
      | H : _ /\ _ |- _ => destruct H
      | H : _ \/ _ |- _ => destruct H
      | H : exists _, _ |- _ => destruct H
      end;
    try discriminate; try congruence.
Qed.

End Backup.

(** *** The timestamp in the directory name *)





(** *** One object, many backups *)

Section BackupRuns.
Context {Store : Type} {winreg : Winreg Store} (env : Env).

(** [os.path.join] never returns the empty path for a non-empty last
    component. *)
Hypothesis join_nonempty : forall a b, b <> "" -> path_join env a b <> "".




End BackupRuns.


(** ** Runs in demonstration mode *)

Section DemoRuns.
Context {Store : Type} {winreg : Winreg Store} (env : Env).

(** A demonstration run of a supported locale on a new object: every key
    of the profile is counted once as attempted and once as succeeded,
    none as failed, and the log holds the announcement, the summary line
    and one line per key. *)
Lemma demo_run (locale : string) (p : Profile) (cfg : Config) (logf : string)
    (world : State Store) :
  WINDOWS_AVAILABLE env = false ->
  cache_faithful world ->
  catalogue locale = Some p ->
  exists st',
    apply_locale_settings env locale (init cfg logf world) = (Ok true, st')
    /\ cache_faithful st'
    /\ LOCALE_SETTINGS_CACHE st' !! locale = Some p
    /\ operation_count st' = Z.of_nat (length p)
    /\ success_count st' = Z.of_nat (length p)
    /\ error_count st' = 0
    /\ backup_path st' = ""
    /\ log_file st' = logf
    /\ events st' =
         events world
         ++ Logged INFO ("Applying settings for locale: " +:+ locale)
         :: Logged INFO ("[DEMO MODE] Applying " +:+ str_int (Z.of_nat (length p))
                         +:+ " settings for " +:+ locale)
         :: demo_lines p.
Proof.
  intros Hdemo Hc Hp.
  destruct (get_locale_settings_supported locale p
              (announced locale (init cfg logf world)) Hc Hp)
    as (st1 & Hget & Hc1 & Hin & Hst1).
  destruct (apply_locale_settings_resolved env locale p (init cfg logf world) Hc Hp)
    as (st1' & Hget' & _ & _ & Hrun).
  rewrite Hget in Hget'. injection Hget' as <-.
  rewrite Hdemo in Hrun.
  destruct (demo_branch_spec locale p st1) as (st' & Hb & Ho & Hs & He & Hev & _).
  exists st'. split; [now rewrite Hrun|].
  assert (LOCALE_SETTINGS_CACHE st' = LOCALE_SETTINGS_CACHE st1) as Hcache.
  { pose proof (keeps_cache_branch env locale p st1) as Hk.
    rewrite Hdemo, Hb in Hk. exact Hk. }
  assert (outside_writer st' = outside_writer st1) as Hout.
  { assert (keeps (@outside_writer Store) (demo_branch locale p)) as Hk.
    { apply keeps_bind; [apply keeps_log_info; repeat split|]. intros _.
      apply keeps_bind; [apply keeps_apply_demo, outside_writer_blind|].
      intros _. apply keeps_ret. }
    specialize (Hk st1). now rewrite Hb in Hk. }
  split; [now apply (cache_faithful_same st1)|].
  split; [now rewrite Hcache|].
  rewrite Ho, Hs, He, Hev, Hst1.
  unfold outside_writer in Hout. rewrite Hst1 in Hout. injection Hout as Hbp Hlf _ _ _ _ _.
  cbn -[String.append Z.add Z.of_nat] in *.
  repeat split; try lia; try assumption.
  now rewrite <- app_assoc.
Qed.

(** C5 (as amended). Applying [pl-PL] in demonstration mode on a new
    object resolves a profile of exactly 22 keys and ends with 22
    operations attempted, 22 succeeded and none failed; the report prints
    the success rate as [100.0%]. *)
Theorem pl_PL_demo_run_counts (cfg : Config) (logf : string) (world : State Store) :
  WINDOWS_AVAILABLE env = false ->
  cache_faithful world ->
  exists p st' text,
    catalogue "pl-PL" = Some p
    /\ length p = 22%nat
    /\ apply_locale_settings env "pl-PL" (init cfg logf world) = (Ok true, st')
    /\ operation_count st' = 22
    /\ success_count st' = 22
    /\ error_count st' = 0
    /\ generate_statistics_report st' = (Ok text, st')
    /\ format_1f (success_rate st') = "100.0"
    /\ Substring ("  Success Rate: " +:+ Colors.BLUE +:+ "100.0" +:+ "%") text.
Proof.
  intros Hdemo Hc.
  destruct (catalogue "pl-PL") as [p|] eqn:Hp; [|discriminate Hp].
  assert (length p = 22%nat) as Hlen by (injection Hp as <-; reflexivity).
  destruct (demo_run "pl-PL" p cfg logf world Hdemo Hc Hp)
    as (st' & Hrun & _ & _ & Ho & Hs & He & _).
  rewrite Hlen in Ho, Hs. change (Z.of_nat 22) with 22 in Ho, Hs.
  assert (format_1f (success_rate st') = "100.0") as Hrate.
  { unfold success_rate. rewrite Ho, Hs. reflexivity. }
  eexists p, st', _. split; [reflexivity|]. split; [exact Hlen|].
  split; [exact Hrun|]. split; [exact Ho|]. split; [exact Hs|]. split; [exact He|].
  split; [apply generate_statistics_report_value|]. split; [exact Hrate|].
  fold (success_rate st'). rewrite <- Hrate.
  apply report_text_fields.
Qed.

(** C9. Applying [en-US] twice in demonstration mode, each run on a new
    object as every caller in the module does, gives the same result
    twice: both runs return [True], both end with the same counters (one
    attempt and one success per key of the profile, no failure), and both
    log the same lines, one per key with the same name and value.  The
    second run reads the profile from the cache the first one filled. *)
Theorem en_US_demo_runs_agree (cfg : Config) (logf : string) (world : State Store) :
  WINDOWS_AVAILABLE env = false ->
  cache_faithful world ->
  exists p st1 st2 lines,
    catalogue "en-US" = Some p
    /\ apply_locale_settings env "en-US" (init cfg logf world) = (Ok true, st1)
    /\ LOCALE_SETTINGS_CACHE st1 !! "en-US" = Some p
    /\ apply_locale_settings env "en-US" (init cfg logf st1) = (Ok true, st2)
    /\ operation_count st1 = operation_count st2
    /\ success_count st1 = success_count st2
    /\ error_count st1 = error_count st2
    /\ operation_count st1 = Z.of_nat (length p)
    /\ success_count st1 = Z.of_nat (length p)
    /\ error_count st1 = 0
    /\ events st1 = events world ++ lines
    /\ events st2 = events st1 ++ lines
    /\ (exists heading, lines = heading ++ demo_lines p).
Proof.
  intros Hdemo Hc.
  destruct (catalogue "en-US") as [p|] eqn:Hp; [|discriminate Hp].
  destruct (demo_run "en-US" p cfg logf world Hdemo Hc Hp)
    as (st1 & Hrun1 & Hc1 & Hin1 & Ho1 & Hs1 & He1 & _ & _ & Hev1).
  destruct (demo_run "en-US" p cfg logf st1 Hdemo Hc1 Hp)
    as (st2 & Hrun2 & _ & _ & Ho2 & Hs2 & He2 & _ & _ & Hev2).
  eexists p, st1, st2, _.
  split; [reflexivity|]. split; [exact Hrun1|]. split; [exact Hin1|].
  split; [exact Hrun2|].
  split; [congruence|]. split; [congruence|]. split; [congruence|].
  split; [exact Ho1|]. split; [exact Hs1|]. split; [exact He1|].
  split; [exact Hev1|]. split; [exact Hev2|].
  eexists [_; _]. reflexivity.
Qed.

(** On one and the same object the counters carry over: a second
    [en-US] run adds its keys to what the first one counted. *)
Lemma en_US_twice_on_one_object (st : State Store) :
  WINDOWS_AVAILABLE env = false ->
  cache_faithful st ->
  exists p st1 st2,
    catalogue "en-US" = Some p
    /\ apply_locale_settings env "en-US" st = (Ok true, st1)
    /\ apply_locale_settings env "en-US" st1 = (Ok true, st2)
    /\ operation_count st1 = operation_count st + Z.of_nat (length p)
    /\ operation_count st2 = operation_count st1 + Z.of_nat (length p)
    /\ success_count st2 = success_count st1 + Z.of_nat (length p).
Proof.
  intros Hdemo Hc.
  destruct (catalogue "en-US") as [p|] eqn:Hp; [|discriminate Hp].
  assert (forall s : State Store, cache_faithful s ->
            exists s', apply_locale_settings env "en-US" s = (Ok true, s')
                       /\ cache_faithful s'
                       /\ operation_count s' = operation_count s + Z.of_nat (length p)
                       /\ success_count s' = success_count s + Z.of_nat (length p))
    as Hstep.
  { intros s Hs.
    destruct (apply_locale_settings_resolved env "en-US" p s Hs Hp)
      as (s1 & _ & Hc1 & Hs1 & Hrun).
    rewrite Hdemo in Hrun.
    destruct (demo_branch_spec "en-US" p s1) as (s' & Hb & Ho & Hsu & _).
    exists s'. split; [now rewrite Hrun|]. split.
    - pose proof (cache_faithful_apply_locale_settings env "en-US" s Hs) as H.
      rewrite Hrun, Hb in H. exact H.
    - rewrite Ho, Hsu, Hs1. split; reflexivity. }
  destruct (Hstep st Hc) as (st1 & Hrun1 & Hc1 & Ho1 & _).
  destruct (Hstep st1 Hc1) as (st2 & Hrun2 & _ & Ho2 & Hs2).
  exists p, st1, st2. repeat split; assumption.
Qed.

End DemoRuns.

(** ** The success counter and the operation counter *)

Lemma quick_reset_reachable :
  reachable (winreg := Registry.live) windows_env quick_reset_state.
Proof.
  unfold quick_reset_state.
  apply reach_apply, reach_backup, reach_init, reach_boot.
Qed.

Lemma log_success_counts {Store : Type} (message : string) (st : State Store) :
  exists st',
    log_success message st = (Ok tt, st')
    /\ success_count st' = success_count st + 1
    /\ operation_count st' = operation_count st.
Proof. eexists. split; [reflexivity|]. split; reflexivity. Qed.

(** C10. The success counter also moves where the operation counter
    does not.  Every [log_success] adds one to [success_count] and
    leaves [operation_count] alone; so does a [create_backup] that
    returns [True], and so does [set_registry_value] in demonstration
    mode.  Hence [success_count <= operation_count] is no invariant: after
    a quick reset on Windows with a successful backup the object has
    counted 23 successes for 22 operations, and its report prints a
    success rate of [104.5%]. *)
Theorem success_count_can_exceed_operation_count :
  (forall (Store : Type) (message : string) (st : State Store),
      exists st',
        log_success message st = (Ok tt, st')
        /\ success_count st' = success_count st + 1
        /\ operation_count st' = operation_count st)
  /\ (forall (Store : Type) (env : Env)
            registry_path backup_name io (st st' : State Store),
        create_backup env registry_path backup_name io st = (Ok true, st') ->
        success_count st' = success_count st + 1
        /\ operation_count st' = operation_count st)
  /\ (forall (Store : Type) (winreg : Winreg Store) (env : Env)
            hive key_path value_name value_data value_type (st : State Store),
        WINDOWS_AVAILABLE env = false ->
        exists st',
          set_registry_value env hive key_path value_name value_data value_type st
            = (Ok true, st')
          /\ success_count st' = success_count st + 1
          /\ operation_count st' = operation_count st)
  /\ (reachable (winreg := Registry.live) windows_env quick_reset_state
      /\ operation_count quick_reset_state = 22
      /\ success_count quick_reset_state = 23
      /\ (100 < success_rate quick_reset_state)%Q
      /\ exists text,
           fst (generate_statistics_report quick_reset_state) = Ok text
           /\ Substring ("  Success Rate: " +:+ Colors.BLUE +:+ "104.5" +:+ "%") text).
Proof.
  split; [|split; [|split]].
  - intros Store message st. apply log_success_counts.
  - intros Store env registry_path backup_name io st st' Hrun.
    destruct (WINDOWS_AVAILABLE env) eqn:Hw.
    + destruct (create_backup_live env registry_path backup_name io st Hw)
        as (b & st1 & Hrun1 & _ & Ho & _ & _ & Htrue & _).
      rewrite Hrun in Hrun1. injection Hrun1 as <- <-.
      destruct (Htrue eq_refl) as (_ & _ & Hs & _). now split.
    + destruct (create_backup_demo env registry_path backup_name io st Hw)
        as (st1 & Hrun1 & _).
      rewrite Hrun in Hrun1. discriminate Hrun1.
  - intros Store winreg env hive key_path value_name value_data value_type st Hdemo.
    destruct (set_registry_value_demo env hive key_path value_name value_data
                value_type st Hdemo) as (st' & Hrun & Hs & Ho & _).
    exists st'. repeat split; assumption.
  - assert (operation_count quick_reset_state = 22) as Ho by (vm_compute; reflexivity).
    assert (success_count quick_reset_state = 23) as Hs by (vm_compute; reflexivity).
    assert (format_1f (success_rate quick_reset_state) = "104.5") as Hrate.
    { unfold success_rate. rewrite Ho, Hs. reflexivity. }
    split; [apply quick_reset_reachable|]. split; [exact Ho|]. split; [exact Hs|].
    split; [unfold success_rate; rewrite Ho, Hs; reflexivity|].
    eexists. rewrite generate_statistics_report_value. split; [reflexivity|].
    fold (success_rate quick_reset_state). rewrite <- Hrate.
    apply report_text_fields.
Qed.

(** ** Concrete runs *)

Lemma cache_faithful_boot {Store : Type} (r : Store) (dirs fls : gset string) :
  cache_faithful (boot r dirs fls).
Proof. intros l p H. cbn in H. rewrite lookup_empty in H. discriminate H. Qed.


(** C3, the code at the failing input. A write whose read-back differs
    on each of the three attempts makes exactly [maxRetries] = 3 attempts
    and returns [False], but no failure is recorded for the key: the
    error counter stays at 0 and nothing is logged, where the claim has
    exactly one failed outcome recorded.  The [except] branch of the same
    loop does record it ([set_registry_value_all_raise]). *)
Theorem read_back_mismatch_is_not_recorded :
  fst truncated_write = Ok false
  /\ attempts (registry_calls (snd truncated_write)) = 3
  /\ operation_count (snd truncated_write) = 3
  /\ error_count (snd truncated_write) = 0
  /\ events (snd truncated_write) = [].
Proof. vm_compute. repeat split. Qed.

(** On the registry model every attempt to write that value reads back
    something else, whatever the registry holds, and logs nothing. *)
Lemma truncated_attempt_differs
    (st0 : State (gmap string (gmap string (Value * Z)))) :
  exists st1,
    write_attempt (winreg := Registry.live) HKEY_CURRENT_USER intl_path "s1159"
      am_with_nul REG_SZ st0 = (Ok None, st1)
    /\ events st1 = events st0.
Proof.
  unfold write_attempt, bind, modify, winreg_call, ret.
  cbn -[String.append Z.add intl_path lookup insert].
  unfold Registry.create_key, Registry.set_value_ex, Registry.open_key,
    Registry.query_value_ex.
  destruct (registry st0 !! intl_path) as [values|] eqn:E;
    cbn -[String.append Z.add intl_path lookup insert];
    rewrite ?E, ?lookup_insert_eq;
    cbn -[String.append Z.add intl_path lookup insert];
    rewrite ?lookup_insert_eq;
    cbn -[String.append Z.add intl_path lookup insert];
    rewrite ?lookup_insert_eq;
    cbn -[String.append Z.add intl_path lookup insert];
    eexists; split; reflexivity.
Qed.

(** So the silent failure does not depend on the registry's content or
    on the retry bound: the value is never reported as failed. *)
Lemma truncated_write_never_recorded
    (st : State (gmap string (gmap string (Value * Z)))) :
  exists st' new,
    set_registry_value (winreg := Registry.live) windows_env HKEY_CURRENT_USER
      intl_path "s1159" am_with_nul (Some REG_SZ) st = (Ok false, st')
    /\ registry_calls st' = registry_calls st ++ new
    /\ attempts new = iterations st
    /\ error_count st' = error_count st
    /\ events st' = events st.
Proof.
  apply (set_registry_value_all_differ (winreg := Registry.live) windows_env).
  - reflexivity.
  - apply truncated_attempt_differs.
Qed.

(** The same key on a registry that denies access: three attempts, and
    here the one failure is recorded. *)
Lemma denied_write_is_recorded :
  let r := set_registry_value (winreg := Registry.denied) windows_env
             HKEY_CURRENT_USER intl_path "s1159" am_with_nul (Some REG_SZ)
             (boot tt ∅ ∅) in
  fst r = Ok false
  /\ attempts (registry_calls (snd r)) = 3
  /\ error_count (snd r) = 1.
Proof. vm_compute. repeat split. Qed.

(** On that registry the failure is recorded whatever the state and the
    value, as long as the bound allows one attempt. *)
Lemma denied_write_always_recorded (key_path value_name : string)
    (value_data : Value) (value_type : option Z) (st : State unit) :
  1 <= maxRetries (user_config st) ->
  exists st' new,
    set_registry_value (winreg := Registry.denied) windows_env HKEY_CURRENT_USER
      key_path value_name value_data value_type st = (Ok false, st')
    /\ registry_calls st' = registry_calls st ++ new
    /\ attempts new = maxRetries (user_config st)
    /\ error_count st' = error_count st + 1.
Proof.
  intros Hpos.
  apply (set_registry_value_all_raise (winreg := Registry.denied) windows_env);
    [reflexivity | exact Hpos |].
  intros st0. do 2 eexists. reflexivity.
Qed.

(** C1 at a concrete input: [xx-XX] on a new process. *)
Lemma unsupported_locale_witness :
  exists e st',
    apply_locale_settings (winreg := Registry.live) windows_env "xx-XX" (boot ∅ ∅ ∅)
      = (Raise e, st')
    /\ exn_class e = KeyError
    /\ operation_count st' = 0
    /\ success_count st' = 0
    /\ error_count st' = 0
    /\ registry st' = ∅
    /\ registry_calls st' = []
    /\ outside_writer st' = outside_writer (boot (Store := gmap string (gmap string (Value * Z))) ∅ ∅ ∅)
    /\ events st' = [] ++ [Logged INFO ("Applying settings for locale: " +:+ "xx-XX")].
Proof.
  apply (unsupported_locale_fails_before_any_write (winreg := Registry.live)
           windows_env "xx-XX" (boot ∅ ∅ ∅)).
  - apply cache_faithful_boot.
  - reflexivity.
Defined.

(** C2 as stated fails: a key that is busy once and then written is one
    key applied, and the operation counter has gone up by two. *)
Lemma one_key_two_operations :
  let st := boot (Store := nat * gmap string (gmap string (Value * Z))) (1%nat, ∅) ∅ ∅ in
  let r := set_registry_value (winreg := Registry.busy) windows_env
             HKEY_CURRENT_USER intl_path "sCurrency" (VStr "$") (Some REG_SZ) st in
  fst r = Ok true
  /\ operation_count (snd r) = operation_count st + 2
  /\ operation_count (snd r) <> operation_count st + 1.
Proof. vm_compute. repeat split; discriminate. Qed.

(** C2 as amended, at that input and at a demonstration run. *)
Lemma operation_count_witness :
  (WINDOWS_AVAILABLE windows_env = true
   /\ exists b st' new,
        set_registry_value (winreg := Registry.busy) windows_env HKEY_CURRENT_USER
          intl_path "sCurrency" (VStr "$") (Some REG_SZ) (boot (1%nat, ∅) ∅ ∅)
          = (Ok b, st')
        /\ registry_calls st' = [] ++ new
        /\ operation_count st' = 0 + attempts new
        /\ attempts new <= 3
        /\ (b = true -> 1 <= attempts new)
        /\ (b = false -> attempts new = 3))
  /\ (WINDOWS_AVAILABLE demo_env = false
      /\ exists st',
           apply_locale_settings (winreg := Registry.MockWinreg) demo_env "de-DE"
             (boot tt ∅ ∅) = (Ok true, st')
           /\ operation_count st' = 0 + Z.of_nat 4).
Proof.
  split.
  - split; [reflexivity|].
    apply (proj1 (operation_count_counts_attempts (winreg := Registry.busy) windows_env
                    HKEY_CURRENT_USER intl_path "sCurrency" (VStr "$") (Some REG_SZ)
                    (boot (1%nat, ∅) ∅ ∅))).
    reflexivity.
  - split; [reflexivity|].
    apply (proj2 (operation_count_counts_attempts (winreg := Registry.MockWinreg) demo_env
                    HKEY_CURRENT_USER "" "" (VInt 0) None (boot tt ∅ ∅))
             "de-DE"
             [ ("Locale", VStr "de-DE"); ("LocaleName", VStr "de-DE");
               ("sLanguage", VStr "DE"); ("sCountry", VStr "German (Germany)") ]%string).
    + reflexivity.
    + apply cache_faithful_boot.
    + reflexivity.
Defined.


(** C5 as stated fails: the Polish profile has 22 keys, and a
    demonstration run on a new process counts 22 operations, not 19. *)
Lemma pl_PL_profile_is_not_19_keys :
  let st' := snd (apply_locale_settings (winreg := Registry.MockWinreg) demo_env
                    "pl-PL" (boot tt ∅ ∅)) in
  (exists p, catalogue "pl-PL" = Some p /\ length p = 22%nat /\ length p <> 19%nat)
  /\ operation_count st' = 22 /\ operation_count st' <> 19
  /\ success_count st' = 22 /\ success_count st' <> 19.
Proof.
  vm_compute. repeat split; try discriminate.
  eexists. repeat split. discriminate.
Qed.

(** C5 as amended, on a new process in demonstration mode. *)
Lemma pl_PL_demo_run_witness :
  WINDOWS_AVAILABLE demo_env = false
  /\ exists p st' text,
       catalogue "pl-PL" = Some p
       /\ length p = 22%nat
       /\ apply_locale_settings (winreg := Registry.MockWinreg) demo_env "pl-PL"
            (init DEFAULT_CONFIG "reset.log" (boot tt ∅ ∅)) = (Ok true, st')
       /\ operation_count st' = 22
       /\ success_count st' = 22
       /\ error_count st' = 0
       /\ generate_statistics_report st' = (Ok text, st')
       /\ format_1f (success_rate st') = "100.0"
       /\ Substring ("  Success Rate: " +:+ Colors.BLUE +:+ "100.0" +:+ "%") text.
Proof.
  split; [reflexivity|].
  apply (pl_PL_demo_run_counts (winreg := Registry.MockWinreg) demo_env
           DEFAULT_CONFIG "reset.log" (boot tt ∅ ∅)).
  - reflexivity.
  - apply cache_faithful_boot.
Defined.





(** C9 at a concrete input: two runs on a new process. *)
Lemma en_US_demo_runs_witness :
  WINDOWS_AVAILABLE demo_env = false
  /\ exists p st1 st2 lines,
       catalogue "en-US" = Some p
       /\ apply_locale_settings (winreg := Registry.MockWinreg) demo_env "en-US"
            (init DEFAULT_CONFIG "reset.log" (boot tt ∅ ∅)) = (Ok true, st1)
       /\ LOCALE_SETTINGS_CACHE st1 !! "en-US" = Some p
       /\ apply_locale_settings (winreg := Registry.MockWinreg) demo_env "en-US"
            (init DEFAULT_CONFIG "reset.log" st1) = (Ok true, st2)
       /\ operation_count st1 = operation_count st2
       /\ success_count st1 = success_count st2
       /\ error_count st1 = error_count st2
       /\ operation_count st1 = Z.of_nat (length p)
       /\ success_count st1 = Z.of_nat (length p)
       /\ error_count st1 = 0
       /\ events st1 = [] ++ lines
       /\ events st2 = events st1 ++ lines
       /\ (exists heading, lines = heading ++ demo_lines p).
Proof.
  split; [reflexivity|].
  apply (en_US_demo_runs_agree (winreg := Registry.MockWinreg) demo_env
           DEFAULT_CONFIG "reset.log" (boot tt ∅ ∅)).
  - reflexivity.
  - apply cache_faithful_boot.
Defined.

(** C10 at concrete inputs: the backup of the quick reset, and a value
    set in demonstration mode. *)
Lemma success_count_witness :
  (exists st',
     create_backup windows_env "HKCU" "first" quick_reset_io (boot tt ∅ ∅) = (Ok true, st')
     /\ success_count st' = 0 + 1
     /\ operation_count st' = 0)
  /\ (WINDOWS_AVAILABLE demo_env = false
      /\ exists st',
           set_registry_value (winreg := Registry.MockWinreg) demo_env HKEY_CURRENT_USER
             "Software" "AcceptLanguage" (VStr "en-US") None (boot tt ∅ ∅) = (Ok true, st')
           /\ success_count st' = 0 + 1
           /\ operation_count st' = 0).
Proof.
  split.
  - eexists. split; [reflexivity|].
    apply (proj1 (proj2 success_count_can_exceed_operation_count) unit windows_env
             "HKCU" "first" quick_reset_io (boot tt ∅ ∅)).
    reflexivity.
  - split; [reflexivity|].
    apply (proj1 (proj2 (proj2 success_count_can_exceed_operation_count)) unit
             Registry.MockWinreg demo_env HKEY_CURRENT_USER "Software" "AcceptLanguage"
             (VStr "en-US") None (boot tt ∅ ∅)).
    reflexivity.
Defined.
